(** * CivicFeed: the Post resource (server/routes/posts.js, server/models/Post)

    A shallow embedding of the Express route handlers of the Post resource
    and of the Mongoose schema they persist through, with the properties of
    the resource stated and proved over it.

    The handlers are thin: every one of them reads a document through
    Mongoose, edits it, saves it and answers with JSON.  What the handlers
    themselves do is translated line by line; what the collaborators do
    (Mongoose casting and validation, the MongoDB geospatial index, multer,
    the Express error middleware) is written out as far as the handlers
    observe it:

    - [Post.findById] casts its argument to an ObjectId and rejects with a
      CastError when the cast fails; the handler's [catch] turns that into
      a 500;
    - [save] runs the validators of the paths the handler assigned and
      rejects with a ValidationError when one fails;
    - [populate] on a document returns a promise (Mongoose 6 and later): a
      single call is awaited and fills in names, a chain of calls throws a
      TypeError at its second link;
    - JavaScript numbers are doubles: string-to-number conversion and the
      great-circle distance of the 2dsphere index are taken as parameters
      ([Numerics], [GeoIndex]) rather than re-implemented. *)

From Stdlib Require Import Ascii QArith Qabs.
From stdpp Require Import gmap strings list fin_maps pretty sorting.

Local Open Scope Z_scope.

(** ** JavaScript values and strings

    A string is the UTF-8 text of the JavaScript string, as it arrives in
    the request: a character outside ASCII takes two to four bytes.  The
    patterns the handlers search for are ASCII, which no byte of a longer
    character matches. *)

Module Js.

(** The values a parsed request body or query string holds, as far as the
    handlers look at them: a missing key reads as [undefined]; JSON numbers,
    arrays and objects are not modelled. *)
Inductive JsValue :=
| VUndefined
| VNull
| VBool (b : bool)
| VString (s : string).

#[global] Instance JsValue_eq_dec : EqDecision JsValue.
Proof. solve_decision. Defined.

(** [if (v)]: ToBoolean. *)
Definition truthy (v : JsValue) : bool :=
  match v with
  | VUndefined | VNull => false
  | VBool b => b
  | VString s => bool_decide (s ≠ "")
  end.

(** [String(v)]: ToString. *)
Definition toString (v : JsValue) : string :=
  match v with
  | VUndefined => "undefined"
  | VNull => "null"
  | VBool true => "true"
  | VBool false => "false"
  | VString s => s
  end.

(** A JS object used as a record of request fields; destructuring
    [const { k } = obj] reads [undefined] for an absent key. *)
Definition get (obj : gmap string JsValue) (k : string) : JsValue :=
  default VUndefined (obj !! k).

Definition lowerChar (c : ascii) : ascii :=
  let n := N_of_ascii c in
  if ((65 <=? n) && (n <=? 90))%N then ascii_of_N (n + 32) else c.

(** [s.toLowerCase()].  The letters A to Z go to a to z.  Two characters
    outside ASCII have ASCII in their lower case: the dotted capital I
    (U+0130, bytes 196 176) goes to [i] followed by the combining dot
    (U+0307, bytes 204 135), and the Kelvin sign (U+212A, bytes 226 132 170)
    to [k].  Every other character outside ASCII has a lower case outside
    ASCII, which no pattern of the handlers tells from the character
    itself; it is kept as it is. *)
Fixpoint toLowerCase (s : string) : string :=
  match s with
  | EmptyString => EmptyString
  | String c s' =>
      match s' with
      | String c1 s1 =>
          if bool_decide (c = "196"%char ∧ c1 = "176"%char)
          then String "i" (String "204" (String "135" (toLowerCase s1)))
          else
            match s1 with
            | String c2 s2 =>
                if bool_decide (c = "226"%char ∧ c1 = "132"%char ∧ c2 = "170"%char)
                then String "k" (toLowerCase s2)
                else String (lowerChar c) (toLowerCase s')
            | EmptyString => String (lowerChar c) (toLowerCase s')
            end
      | EmptyString => String (lowerChar c) EmptyString
      end
  end.

Fixpoint startsWith (p s : string) : bool :=
  match p, s with
  | EmptyString, _ => true
  | String a p', String b s' => bool_decide (a = b) && startsWith p' s'
  | String _ _, EmptyString => false
  end.

(** [sub] occurs somewhere in [s] (an unanchored literal pattern). *)
Fixpoint contains (sub s : string) : bool :=
  startsWith sub s ||
  match s with
  | EmptyString => false
  | String _ s' => contains sub s'
  end.

(** [s.split(sep)] for a one-character separator. *)
Fixpoint split_go (sep : ascii) (cur : string) (s : string) : list string :=
  match s with
  | EmptyString => [String.rev cur]
  | String c s' =>
      if bool_decide (c = sep) then String.rev cur :: split_go sep EmptyString s'
      else split_go sep (String c cur) s'
  end.
Definition split (sep : ascii) (s : string) : list string :=
  split_go sep EmptyString s.

(** [s] without its leading ASCII white space. *)
Fixpoint dropSpaces (s : string) : string :=
  match s with
  | String c s' => if Ascii.is_space c then dropSpaces s' else s
  | EmptyString => EmptyString
  end.

(** The white space and the line terminators of ECMAScript, the characters
    that [String.prototype.trim] strips, each in its UTF-8 encoding: U+0009
    to U+000D, U+0020, U+00A0, U+1680, U+2000 to U+200A, U+2028, U+2029,
    U+202F, U+205F, U+3000 and U+FEFF. *)
Definition utf8 (bytes : list N) : string :=
  String.string_of_list_ascii (ascii_of_N <$> bytes).

Definition whiteSpace : list string :=
  (utf8 <$> [[9]; [10]; [11]; [12]; [13]; [32]; [194; 160]; [225; 154; 128]] ++
            ((λ b, [226; 128; b]) <$> [128; 129; 130; 131; 132; 133; 134; 135;
                                       136; 137; 138; 168; 169; 175]) ++
            [[226; 129; 159]; [227; 128; 128]; [239; 187; 191]])%N.

(** The rest of [s] after the prefix [p], if [s] starts with [p]. *)
Fixpoint dropPrefix (p s : string) : option string :=
  match p, s with
  | EmptyString, _ => Some s
  | String a p', String b s' => if bool_decide (a = b) then dropPrefix p' s' else None
  | String _ _, EmptyString => None
  end.

(** The rest of [s] after one leading character of [chars], if it starts
    with one. *)
Fixpoint dropOne (chars : list string) (s : string) : option string :=
  match chars with
  | [] => None
  | c :: chars' =>
      match dropPrefix c s with
      | Some rest => Some rest
      | None => dropOne chars' s
      end
  end.

(** Drops leading characters of [chars] for as long as there is one; [n]
    bounds the number of characters dropped. *)
Fixpoint dropAll (chars : list string) (n : nat) (s : string) : string :=
  match n with
  | O => s
  | S n' =>
      match dropOne chars s with
      | Some rest => dropAll chars n' rest
      | None => s
      end
  end.

(** [s.trimStart()], [s.trimEnd()] and [s.trim()].  The end of a string is
    trimmed on its reversal, against the reversed encodings. *)
Definition trimStart (s : string) : string :=
  dropAll whiteSpace (String.length s) s.
Definition trimEnd (s : string) : string :=
  String.rev (dropAll (String.rev <$> whiteSpace) (String.length s) (String.rev s)).
Definition trim (s : string) : string := trimEnd (trimStart s).

(** JavaScript's string-to-number conversions.  Their results are doubles;
    the handlers only store them, compare them and hand them to the
    database, so a finite result is kept as a rational and [NaN] as
    [None] (an infinite result, which no validator and no index accepts
    either, goes with [NaN]).  Which strings convert to which number is the
    runtime's business and is not fixed here. *)
Class Numerics := {
  Number : string → option Q;
  parseFloat : string → option Q;
  parseInt : string → option Z
}.

(** [parseFloat(v)] and [parseInt(v)] convert their argument to a string
    first; none of ["undefined"], ["null"], ["true"], ["false"] is numeric. *)
Definition parseFloatV `{Numerics} (v : JsValue) : option Q :=
  match v with VString s => parseFloat s | _ => None end.

End Js.

Import Js.

(** ** Mongoose: ObjectIds, documents, PostSchema (server/models/Post) and
    the collection *)

Module Mongoose.

(** An ObjectId in its canonical text form, the 24 lower-case hex digits
    that [ObjectId.prototype.toString] prints.  References to users and the
    [_id] of a post are kept in this form. *)
Abbreviation ObjectId := string (only parsing).

Definition isHexDigit (c : ascii) : bool :=
  let n := N_of_ascii c in
  (((48 <=? n) && (n <=? 57)) || ((97 <=? n) && (n <=? 102)) ||
   ((65 <=? n) && (n <=? 70)))%N.

Fixpoint allHex (s : string) : bool :=
  match s with
  | EmptyString => true
  | String c s' => isHexDigit c && allHex s'
  end.

(** The ObjectId cast of a string: a string of 24 hex digits denotes an
    ObjectId (read case-insensitively); any other string is a cast failure.
    (Drivers before bson 5 also read a 12-character string as twelve raw
    bytes; that legacy form is left out, so the strings that cast here cast
    under every driver version.) *)
Definition castObjectId (s : string) : option ObjectId :=
  if (String.length s =? 24)%nat && allHex s then Some (toLowerCase s) else None.

(** What a rejected promise or a thrown exception carries.  The handlers
    copy [error.message] into the body of a 500; the kind of the error and
    the schema paths it names stand for that text. *)
Inductive Error :=
| CastError (path : string)
| ValidationError (paths : list string)
| MongoServerError (reason : string)
| MulterError (code : string)
| TypeError (message : string)
| PlainError (message : string).

#[global] Instance Error_eq_dec : EqDecision Error.
Proof. solve_decision. Defined.

(** A computation that returns or throws. *)
Inductive Outcome (A : Type) :=
| Return (a : A)
| Throw (e : Error).
Arguments Return {A} a.
Arguments Throw {A} e.

#[global] Instance Outcome_ret : MRet Outcome := @Return.
#[global] Instance Outcome_bind : MBind Outcome := λ A B f m,
  match m with
  | Return a => f a
  | Throw e => Throw e
  end.
#[global] Instance Outcome_fmap : FMap Outcome := λ A B f m,
  match m with
  | Return a => Return (f a)
  | Throw e => Throw e
  end.

(** *** The schema *)

Record Location := {
  lng : Q;                       (* coordinates[0] *)
  lat : Q;                       (* coordinates[1] *)
  address : option string
}.

Record Comment := {
  user : ObjectId;
  text : string;
  commentedAt : Z                (* comments.createdAt *)
}.

(** A post document without its [_id]: the collection holds it under that
    key and a handler answers with the pair. *)
Record Post := {
  title : string;
  description : string;
  category : string;
  location : Location;
  imageUrl : option string;
  videoUrl : option string;
  status : string;
  author : ObjectId;
  assignedTo : option ObjectId;
  upvotes : list ObjectId;
  likes : list ObjectId;
  shares : Z;
  comments : list Comment;
  createdAt : Z;
  updatedAt : Z
}.

#[global] Instance Q_eq_dec : EqDecision Q.
Proof. solve_decision. Defined.
#[global] Instance Location_eq_dec : EqDecision Location.
Proof. solve_decision. Defined.
#[global] Instance Comment_eq_dec : EqDecision Comment.
Proof. solve_decision. Defined.
#[global] Instance Post_eq_dec : EqDecision Post.
Proof. solve_decision. Defined.

(** [category.enum] and [status.enum] of PostSchema. *)
Definition categoryEnum : list string :=
  ["roads"; "lighting"; "sanitation"; "water"; "parks"; "safety"; "other"].
Definition statusEnum : list string :=
  ["reported"; "in progress"; "resolved"].

(** Assignment to one path of a document. *)
Definition set_status (s : string) (p : Post) : Post :=
  {| title := title p; description := description p;
     category := category p; location := location p; imageUrl := imageUrl p;
     videoUrl := videoUrl p; status := s; author := author p;
     assignedTo := assignedTo p; upvotes := upvotes p; likes := likes p;
     shares := shares p; comments := comments p; createdAt := createdAt p;
     updatedAt := updatedAt p |}.
Definition set_assignedTo (a : option ObjectId) (p : Post) : Post :=
  {| title := title p; description := description p;
     category := category p; location := location p; imageUrl := imageUrl p;
     videoUrl := videoUrl p; status := status p; author := author p;
     assignedTo := a; upvotes := upvotes p; likes := likes p;
     shares := shares p; comments := comments p; createdAt := createdAt p;
     updatedAt := updatedAt p |}.
Definition set_upvotes (l : list ObjectId) (p : Post) : Post :=
  {| title := title p; description := description p;
     category := category p; location := location p; imageUrl := imageUrl p;
     videoUrl := videoUrl p; status := status p; author := author p;
     assignedTo := assignedTo p; upvotes := l; likes := likes p;
     shares := shares p; comments := comments p; createdAt := createdAt p;
     updatedAt := updatedAt p |}.
Definition set_likes (l : list ObjectId) (p : Post) : Post :=
  {| title := title p; description := description p;
     category := category p; location := location p; imageUrl := imageUrl p;
     videoUrl := videoUrl p; status := status p; author := author p;
     assignedTo := assignedTo p; upvotes := upvotes p; likes := l;
     shares := shares p; comments := comments p; createdAt := createdAt p;
     updatedAt := updatedAt p |}.
Definition set_comments (l : list Comment) (p : Post) : Post :=
  {| title := title p; description := description p;
     category := category p; location := location p; imageUrl := imageUrl p;
     videoUrl := videoUrl p; status := status p; author := author p;
     assignedTo := assignedTo p; upvotes := upvotes p; likes := likes p;
     shares := shares p; comments := l; createdAt := createdAt p;
     updatedAt := updatedAt p |}.
Definition set_updatedAt (t : Z) (p : Post) : Post :=
  {| title := title p; description := description p;
     category := category p; location := location p; imageUrl := imageUrl p;
     videoUrl := videoUrl p; status := status p; author := author p;
     assignedTo := assignedTo p; upvotes := upvotes p; likes := likes p;
     shares := shares p; comments := comments p; createdAt := createdAt p;
     updatedAt := t |}.

(** *** Casting *)

(** The String cast of a request value: [null] and [undefined] stay unset,
    a boolean is printed. *)
Definition castString (v : JsValue) : option string :=
  match v with
  | VUndefined | VNull => None
  | _ => Some (toString v)
  end.

(** The ObjectId cast of a request value: [null] and [undefined] stay
    unset; anything else goes through its string form. *)
Definition castObjectIdV (path : string) (v : JsValue) : Outcome (option ObjectId) :=
  match v with
  | VUndefined | VNull => Return None
  | _ => match castObjectId (toString v) with
         | Some oid => Return (Some oid)
         | None => Throw (CastError path)
         end
  end.

(** *** The collection *)

(** The posts collection, keyed by [_id]. *)
Abbreviation Store := (gmap ObjectId Post).

(** A document as Mongoose hands it out: the [_id] and the other paths. *)
Abbreviation Document := (ObjectId * Post)%type.

(** [Post.findById(id)]: the id is cast first; a string that is no ObjectId
    rejects the query, otherwise the document or [null] comes back. *)
Definition findById (st : Store) (id : string) : Outcome (option Document) :=
  match castObjectId id with
  | None => Throw (CastError "_id")
  | Some oid => Return (pair oid <$> st !! oid)
  end.

(** The 2dsphere index only accepts a point whose longitude is within
    [-180, 180] and whose latitude is within [-90, 90]. *)
Definition validPoint (lng lat : Q) : bool :=
  Qle_bool (-180) lng && Qle_bool lng 180 &&
  Qle_bool (-90) lat && Qle_bool lat 90.

(** [timestamps: true]: a save that changes the stored document stamps
    [updatedAt]; a save that changes nothing writes nothing. *)
Definition stamp (now : Z) (old new : Post) : Post :=
  if decide (new = old) then new else set_updatedAt now new.

(** [doc.save()] on a document read from the collection: written back
    under its [_id].  The validation that precedes the write is spelled out
    in each handler for the paths it assigns; the validators of the required
    paths, which every save runs again, pass on every document a save has
    stored ([reachable_Valid] below). *)
Definition save (now : Z) (st : Store) (_id : ObjectId) (old new : Post) : Store :=
  <[_id := stamp now old new]> st.

End Mongoose.

Import Mongoose.

(** ** multer: the upload middleware of [POST /] (posts.js, lines 10-35) *)

Module Multer.

(** The file part of a multipart request, as multer meets it. *)
Record Upload := {
  originalname : string;
  mimetype : string;
  size : N                       (* bytes *)
}.

(** [req.file] once the part has been stored. *)
Record File := {
  filename : string;
  fileMimetype : string          (* req.file.mimetype *)
}.

Fixpoint dropSlashes (s : string) : string :=
  match s with
  | String "/" s' => dropSlashes s'
  | _ => s
  end.

Fixpoint upTo (c : ascii) (s : string) : string :=
  match s with
  | EmptyString => EmptyString
  | String a s' => if bool_decide (a = c) then EmptyString else String a (upTo c s')
  end.

(** [path.basename] without its trailing slashes, reversed. *)
Definition revBasename (path : string) : string :=
  upTo "/" (dropSlashes (String.rev path)).

(** [path.extname(path)]: from the last dot of the last path segment to
    its end; empty when the segment has no dot, starts with its only dot,
    or is [".."]. *)
Definition extname (path : string) : string :=
  let rb := revBasename path in
  let afterDot := upTo "." rb in          (* the extension, reversed, without its dot *)
  let n := String.length afterDot in
  if (n =? String.length rb)%nat then ""          (* no dot *)
  else if (S n =? String.length rb)%nat then ""   (* the dot opens the segment *)
  else if bool_decide (rb = "..") then ""
  else String.rev (String.substring 0 (S n) rb).

(** [/jpeg|jpg|png|gif|mp4|mov|avi/]. *)
Definition filetypes : list string :=
  ["jpeg"; "jpg"; "png"; "gif"; "mp4"; "mov"; "avi"].

(** [filetypes.test(s)]: the pattern is not anchored, one alternative has
    to occur somewhere in [s]. *)
Definition test (s : string) : bool :=
  existsb (λ t, contains t s) filetypes.

Definition fileFilter (file : Upload) : bool :=
  let extname := test (toLowerCase (extname (originalname file))) in
  let mimetype := test (mimetype file) in
  mimetype && extname.

(** [limits.fileSize]. *)
Definition fileSize : N := 10 * 1024 * 1024.

(** [upload.single('media')]: no file part, nothing to do; a part the
    filter refuses or that outgrows the limit makes multer call
    [next(err)]; otherwise the file is stored under
    [Date.now() + path.extname(file.originalname)]. *)
Definition single (uploadedAt : Z) (part : option Upload) : Outcome (option File) :=
  match part with
  | None => Return None
  | Some file =>
      if negb (fileFilter file) then
        Throw (PlainError "Only image and video files are allowed")
      else if (fileSize <? size file)%N then
        Throw (MulterError "LIMIT_FILE_SIZE")
      else
        Return (Some {| filename := pretty uploadedAt +:+ extname (originalname file);
                        fileMimetype := mimetype file |})
  end.

End Multer.

(** ** The routes of the Post resource (server/routes/posts.js) *)

Module Posts.

(** Modelled from the spec: the auth middleware (server/middleware/auth,
    not part of the sources) "must supply [{userId, role}] on the request
    context after verifying a bearer credential".  A handler behind [auth]
    therefore runs with [req.user] set; [userId] is the text of the
    caller's user id. *)
Record AuthUser := {
  userId : string;
  role : string
}.

(** The great-circle distance, in metres, that the 2dsphere index measures
    between two [(longitude, latitude)] points. *)
Class GeoIndex := distance : Q * Q → Q * Q → Q.

(** The JSON a handler answers with.  [populate] joins the names of the
    author, the assignee and the commenters into that JSON; it reads the
    users collection, writes nothing and leaves the references of the post
    as they are, so the answer is given here as the document itself.  (The
    chained [populate] of PUT /:id never gets that far: see
    [populateChain].) *)
Inductive Body :=
| JPost (post : Document)
| JPosts (posts : list Document)
| JComments (comments : list Comment)
| JLikes (likes : nat) (userLiked : bool)
| JUpvotes (upvotes : nat) (hasUpvoted : bool)
| JMessage (message : string) (error : option Error).

Record Response := {
  statusCode : nat;
  body : Body
}.

(** [res.json(b)] and [res.status(n).json(b)]. *)
Definition json (b : Body) : Response := {| statusCode := 200; body := b |}.
Definition status_json (n : nat) (b : Body) : Response := {| statusCode := n; body := b |}.

Definition notFound : Response := status_json 404 (JMessage "Post not found" None).
Definition notAuthorized : Response := status_json 403 (JMessage "Not authorized" None).

(** [try { ... } catch (error) { res.status(500).json(...) }]: a handler
    that throws before its [save] has written nothing. *)
Definition serverError (error : Error) : Response :=
  status_json 500 (JMessage "Server error" (Some error)).

Definition tryCatch (st : Store) (m : Outcome (Response * Store)) : Response * Store :=
  match m with
  | Return r => r
  | Throw error => (serverError error, st)
  end.

(** The error-handling middleware of the application (the server's entry
    file, lines 72-75), where an error passed to [next] ends up. *)
Definition errorMiddleware (err : Error) : Response :=
  status_json 500 (JMessage "Something went wrong!" None).

(** *** GET / (lines 38-78) *)

(** A truthy query parameter. *)
Definition given (q : gmap string string) (k : string) : option string :=
  match q !! k with
  | Some s => if bool_decide (s ≠ "") then Some s else None
  | None => None
  end.

(** [const [lat, lng, radius = 5000] = near.split(',').map(Number)] and the
    [$near] clause built from it: [(lng, lat)] and [$maxDistance].  The
    server refuses a query whose point is not a pair of numbers within the
    bounds of the index or whose distance is not a non-negative number. *)
Definition nearQuery `{Numerics} (near : string) : Outcome (Q * Q * Q) :=
  let nums := Number <$> split "," near in
  let lat := mjoin (nums !! 0%nat) in
  let lng := mjoin (nums !! 1%nat) in
  let radius := match nums !! 2%nat with
                | None => Some (5000 : Q)
                | Some r => r
                end in
  match lat, lng, radius with
  | Some lat, Some lng, Some radius =>
      if validPoint lng lat && Qle_bool 0 radius then Return (lng, lat, radius)
      else Throw (MongoServerError "invalid $near")
  | _, _, _ => Throw (MongoServerError "invalid $near")
  end.

(** Whether a post lies within [$maxDistance] of the [$geometry]. *)
Definition within `{GeoIndex} (near : Q * Q * Q) (p : Post) : bool :=
  let '(lng0, lat0, radius) := near in
  Qle_bool (distance (lng0, lat0) (lng (location p), lat (location p))) radius.

Definition matches `{GeoIndex} (category status : option string)
    (near : option (Q * Q * Q)) (p : Post) : bool :=
  match category with Some c => bool_decide (Mongoose.category p = c) | None => true end &&
  match status with Some s => bool_decide (Mongoose.status p = s) | None => true end &&
  match near with Some n => within n p | None => true end.

(** [{ createdAt: -1 }]. *)
Definition newestFirst (p q : Document) : Prop := createdAt q.2 ≤ createdAt p.2.
#[global] Instance newestFirst_dec : RelDecision newestFirst.
Proof. intros p q. unfold newestFirst. apply _. Defined.

(** [Post.find(query).sort({ createdAt: -1 })]; an explicit sort replaces
    the order in which [$near] would hand the documents over. *)
Definition find `{GeoIndex} (st : Store) (category status : option string)
    (near : option (Q * Q * Q)) : list Document :=
  merge_sort newestFirst (filter (λ doc, matches category status near doc.2 = true)
                                 (map_to_list st)).

(** [.limit(n)]: zero means no limit, a negative limit counts as its
    absolute value. *)
Definition limit (n : Z) (l : list Document) : list Document :=
  if n =? 0 then l else take (Z.to_nat (Z.abs n)) l.

(** [.limit(parseInt(limit)).skip((parseInt(page) - 1) * parseInt(limit))];
    the cursor skips before it limits.  A [NaN] or a negative skip is
    refused. *)
Definition paginate `{Numerics} (q : gmap string string) (l : list Document)
    : Outcome (list Document) :=
  let limitN := match q !! "limit" with None => Some 20 | Some s => parseInt s end in
  let pageN := match q !! "page" with None => Some 1 | Some s => parseInt s end in
  match limitN, pageN with
  | Some n, Some page =>
      let skip := (page - 1) * n in
      if skip <? 0 then Throw (MongoServerError "negative skip")
      else Return (limit n (drop (Z.to_nat skip) l))
  | _, _ => Throw (MongoServerError "limit or skip is NaN")
  end.

Definition getPosts `{Numerics} `{GeoIndex} (st : Store) (query : gmap string string)
    : Response * Store :=
  tryCatch st (
    let category := given query "category" in
    let status := given query "status" in
    near ← match given query "near" with
           | Some near => Some <$> nearQuery near
           | None => Return None
           end;
    posts ← paginate query (find st category status near);
    Return (json (JPosts posts), st)).

(** *** GET /user (lines 81-92) *)

Definition getUserPosts (st : Store) (user : AuthUser) : Response * Store :=
  tryCatch st (
    match castObjectId (userId user) with
    | None => Throw (CastError "author")
    | Some uid =>
        let posts := merge_sort newestFirst
                       (filter (λ doc, author doc.2 = uid) (map_to_list st)) in
        Return (json (JPosts posts), st)
    end).

(** *** GET /:id (lines 95-110) *)

Definition getPost (st : Store) (id : string) : Response * Store :=
  tryCatch st (
    post ← findById st id;
    match post with
    | None => Return (notFound, st)
    | Some post => Return (json (JPost post), st)
    end).

(** *** POST / (lines 113-143) *)

(** A [required] String path: set and not empty. *)
Definition required (v : option string) : option string :=
  match v with
  | Some s => if bool_decide (s ≠ "") then Some s else None
  | None => None
  end.

Definition oneOf (enum : list string) (v : option string) : option string :=
  match v with
  | Some s => if bool_decide (s ∈ enum) then Some s else None
  | None => None
  end.

Definition unless {A} (v : option A) (path : string) : list string :=
  match v with Some _ => [] | None => [path] end.

(** [new Post({...})] followed by the validation that [save] starts with:
    every path is cast and checked against PostSchema; [title] is trimmed;
    [status], [upvotes], [likes], [shares] and [comments] take their
    defaults; [now] is the time of the save. *)
Definition newPost `{Numerics} (now : Z) (user : AuthUser)
    (body : gmap string JsValue) (file : option Multer.File) : Outcome Post :=
  let title := required (trim <$> castString (get body "title")) in
  let description := required (castString (get body "description")) in
  let category := oneOf categoryEnum (required (castString (get body "category"))) in
  let lng := parseFloatV (get body "lng") in
  let lat := parseFloatV (get body "lat") in
  let address := castString (get body "address") in
  let mediaUrl := (λ f, "/uploads/" +:+ Multer.filename f) <$> file in
  let media kind := match file with
                 | Some f => startsWith kind (Multer.fileMimetype f)
                 | None => false
                 end in
  let author := castObjectId (userId user) in
  match title, description, category, lng, lat, author with
  | Some title, Some description, Some category, Some lng, Some lat, Some author =>
      Return {| title := title; description := description;
                category := category;
                location := {| Mongoose.lng := lng; Mongoose.lat := lat;
                               address := address |};
                imageUrl := if media "image" then mediaUrl else None;
                videoUrl := if media "video" then mediaUrl else None;
                status := "reported"; author := author; assignedTo := None;
                upvotes := []; likes := []; shares := 0; comments := [];
                createdAt := now; updatedAt := now |}
  | _, _, _, _, _, _ =>
      Throw (ValidationError
               (unless title "title" ++ unless description "description" ++
                unless category "category" ++
                unless (lng ≫= λ _, lat) "location.coordinates" ++
                unless author "author"))
  end.

(** The insert that ends the [save] of a new document, under the [_id] the
    driver minted for it: the 2dsphere index refuses a point outside its
    bounds, the [_id] index a duplicate. *)
Definition saveNew (st : Store) (_id : ObjectId) (post : Post) : Outcome Store :=
  if negb (validPoint (lng (location post)) (lat (location post))) then
    Throw (MongoServerError "Can't extract geo keys")
  else if bool_decide (is_Some (st !! _id)) then
    Throw (MongoServerError "E11000 duplicate key")
  else Return (<[_id := post]> st).

Definition createPost `{Numerics} (now uploadedAt : Z) (newId : ObjectId)
    (st : Store) (user : AuthUser) (body : gmap string JsValue)
    (media : option Multer.Upload) : Response * Store :=
  match Multer.single uploadedAt media with
  | Throw err => (errorMiddleware err, st)
  | Return file =>
      tryCatch st (
        post ← newPost now user body file;
        st' ← saveNew st newId post;
        Return (status_json 201 (JPost (newId, post)), st'))
  end.

(** *** PUT /:id (lines 146-172) *)

(** [await post.populate(...).populate(...).populate(...)] (lines 164-166):
    [populate] on a document returns a promise (Mongoose 6 and later), and
    a promise has no [populate]; the second call of the chain throws. *)
Definition populateChain : Error :=
  TypeError "post.populate(...).populate is not a function".

Definition updatePost (now : Z) (st : Store) (id : string) (user : AuthUser)
    (body : gmap string JsValue) : Response * Store :=
  tryCatch st (
    let status := get body "status" in
    let assignedTo := get body "assignedTo" in
    post ← findById st id;
    match post with
    | None => Return (notFound, st)
    | Some (_id, post) =>
        (* Only author or municipal workers can update *)
        if bool_decide (author post ≠ userId user) && bool_decide (role user ≠ "municipal")
        then Return (notAuthorized, st)
        else
          (* a truthy value casts to its string form *)
          let post1 := if truthy status then set_status (toString status) post else post in
          let assignee := castObjectId (toString assignedTo) in
          let post2 := if truthy assignedTo
                       then (if assignee is Some a then set_assignedTo (Some a) post1 else post1)
                       else post1 in
          (* save: the enum of a changed status, the cast of assignedTo *)
          let invalid :=
            (if truthy status && bool_decide (toString status ≠ Mongoose.status post) &&
                bool_decide (toString status ∉ statusEnum)
             then ["status"] else []) ++
            (if truthy assignedTo then unless assignee "assignedTo" else []) in
          if bool_decide (invalid ≠ []) then Throw (ValidationError invalid)
          else
            (* the save is done when the populate chain throws:
               res.json(post) is never reached and the catch answers *)
            Return (serverError populateChain, save now st _id post post2)
    end).

(** *** POST /:id/comments (lines 175-196) *)

Definition addComment (now : Z) (st : Store) (id : string) (user : AuthUser)
    (body : gmap string JsValue) : Response * Store :=
  tryCatch st (
    let text := get body "text" in
    post ← findById st id;
    match post with
    | None => Return (notFound, st)
    | Some (_id, post) =>
        let commenter := castObjectId (userId user) in
        let text := required (castString text) in
        match commenter, text with
        | Some commenter, Some text =>
            let post' := set_comments
              (comments post ++ [{| Mongoose.user := commenter; Mongoose.text := text;
                                    commentedAt := now |}]) post in
            Return (json (JComments (comments post')), save now st _id post post')
        | _, _ =>
            Throw (ValidationError (unless commenter "comments.user" ++
                                    unless text "comments.text"))
        end
    end).

(** *** POST /:id/like (lines 199-228) and POST /:id/upvote (lines 231-257) *)

(** [arr.includes(userId)] on an array of ObjectIds: Mongoose compares the
    string with the text of each element. *)
Definition includes (arr : list ObjectId) (userId : string) : bool :=
  bool_decide (userId ∈ arr).

(** [arr.push(userId)]: the value is cast to the element type first. *)
Definition push (path : string) (arr : list ObjectId) (userId : string)
    : Outcome (list ObjectId) :=
  match castObjectId userId with
  | Some oid => Return (arr ++ [oid])
  | None => Throw (CastError path)
  end.

Definition toggleLike (now : Z) (st : Store) (id : string) (user : AuthUser)
    : Response * Store :=
  tryCatch st (
    post ← findById st id;
    match post with
    | None => Return (notFound, st)
    | Some (_id, post) =>
        (* Check if user already liked *)
        let hasLiked := includes (likes post) (userId user) in
        likes' ← (if hasLiked
                   then Return (filter (λ userId', userId' ≠ userId user) (likes post))
                   else push "likes" (likes post) (userId user));
        let post' := set_likes likes' post in
        Return (json (JLikes (length (likes post')) (negb hasLiked)),
                save now st _id post post')
    end).

Definition toggleUpvote (now : Z) (st : Store) (id : string) (user : AuthUser)
    : Response * Store :=
  tryCatch st (
    post ← findById st id;
    match post with
    | None => Return (notFound, st)
    | Some (_id, post) =>
        (* Check if user already upvoted *)
        let hasUpvoted := includes (upvotes post) (userId user) in
        upvotes' ← (if hasUpvoted
                     then Return (filter (λ userId', userId' ≠ userId user) (upvotes post))
                     else push "upvotes" (upvotes post) (userId user));
        let post' := set_upvotes upvotes' post in
        Return (json (JUpvotes (length (upvotes post')) (negb hasUpvoted)),
                save now st _id post post')
    end).

End Posts.

Import Posts.

(** ** Sample collaborators

    Instances of [Numerics] and [GeoIndex] with which the handlers run on
    concrete requests.  The theorems below hold for every instance; these two
    only serve the worked examples. *)

Module Sample.

Fixpoint readDigits (s : string) (acc : N) (n : nat) : N * nat * string :=
  match s with
  | String c s' =>
      match Ascii.is_nat c with
      | Some d => readDigits s' (10 * acc + N.of_nat d)%N (S n)
      | None => (acc, n, s)
      end
  | EmptyString => (acc, n, s)
  end.

Definition readSign (s : string) : Z * string :=
  match s with
  | String "-" s' => (-1, s')
  | String "+" s' => (1, s')
  | _ => (1, s)
  end.

(** The longest prefix of the form [sign digits . digits], as a number,
    with what follows it. *)
Definition readDecimal (s : string) : option (Q * string) :=
  let '(sign, s1) := readSign s in
  let '(int, ni, s2) := readDigits s1 0%N 0%nat in
  let '(frac, nf, s3) := match s2 with
                         | String "." s' => readDigits s' 0%N 0%nat
                         | _ => (0%N, 0%nat, s2)
                         end in
  if (ni + nf =? 0)%nat then None
  else Some (Qred ((sign # 1) * ((Z.of_N int # 1) + (Z.of_N frac # Pos.of_nat (10 ^ nf)))), s3).

(** Plain decimal literals, read the way [Number], [parseFloat] and
    [parseInt] read them. *)
Definition decimal : Numerics := {|
  Number s :=
    let s := trim s in
    if bool_decide (s = "") then Some 0%Q
    else match readDecimal s with
         | Some (q, EmptyString) => Some q
         | _ => None
         end;
  parseFloat s := fst <$> readDecimal (dropSpaces s);
  parseInt s :=
    let '(sign, s1) := readSign (dropSpaces s) in
    let '(int, ni, _) := readDigits s1 0%N 0%nat in
    if (ni =? 0)%nat then None else Some (sign * Z.of_N int)
|}.

(** The way from one point to the other along the meridian and then along
    the parallel, at 111195 metres per degree. *)
Definition grid : GeoIndex := λ a b,
  (111195 * (Qabs (a.1 - b.1) + Qabs (a.2 - b.2)))%Q.

End Sample.

(** ** Worked data *)

Module Data.

Definition alice : AuthUser :=
  {| userId := "64b7f0c2a1d3e4f5a6b7c8d1"; role := "citizen" |}.
Definition bob : AuthUser :=
  {| userId := "64b7f0c2a1d3e4f5a6b7c8d2"; role := "citizen" |}.
Definition clerk : AuthUser :=
  {| userId := "64b7f0c2a1d3e4f5a6b7c8d3"; role := "municipal" |}.

Definition pothole : string := "64b7f0c2a1d3e4f5a6b7c001".
Definition lamp : string := "64b7f0c2a1d3e4f5a6b7c002".

(** The multipart fields of a report at (lat 40.0, lng -75.0). *)
Definition report (title : string) (lat lng : string) : gmap string JsValue :=
  {[ "title" := VString title; "description" := VString "as seen this morning";
     "category" := VString "roads"; "lat" := VString lat; "lng" := VString lng ]}.

(** The collection after alice has reported a pothole at time 1000. *)
Definition store1 : Store :=
  (createPost (H := Sample.decimal) 1000 999 pothole ∅ alice
     (report "Pothole" "40.0" "-75.0") None).2.

(** That post, as the collection holds it. *)
Definition potholePost : Post :=
  {| title := "Pothole"; description := "as seen this morning"; category := "roads";
     location := {| lng := -75; lat := 40; address := None |};
     imageUrl := None; videoUrl := None; status := "reported";
     author := userId alice; assignedTo := None; upvotes := []; likes := [];
     shares := 0; comments := []; createdAt := 1000; updatedAt := 1000 |}.

(** Uploads: a photo, a text file, and a photo one byte over the limit. *)
Definition photo : Multer.Upload :=
  {| Multer.originalname := "pothole.JPG"; Multer.mimetype := "image/jpeg";
     Multer.size := 204800 |}.
Definition notes : Multer.Upload :=
  {| Multer.originalname := "notes.txt"; Multer.mimetype := "text/plain";
     Multer.size := 120 |}.
Definition hugePhoto : Multer.Upload :=
  {| Multer.originalname := "pothole.png"; Multer.mimetype := "image/png";
     Multer.size := 10485761 |}.

(** The same collection after alice has marked her report as under way, at
    time 2000. *)
Definition store2 : Store :=
  (updatePost 2000 store1 pothole alice {[ "status" := VString "in progress" ]}).2.

(** The collection after bob, at time 3000, has reported a broken lamp a
    thousandth of a degree north of the pothole. *)
Definition store3 : Store :=
  (createPost (H := Sample.decimal) 3000 2999 lamp store1 bob
     (report "Lamp" "40.001" "-75.0") None).2.

Definition lampPost : Post :=
  {| title := "Lamp"; description := "as seen this morning"; category := "roads";
     location := {| lng := -75; lat := 40001 # 1000; address := None |};
     imageUrl := None; videoUrl := None; status := "reported";
     author := userId bob; assignedTo := None; upvotes := []; likes := [];
     shares := 0; comments := []; createdAt := 3000; updatedAt := 3000 |}.

End Data.

(** ** What the properties are stated with *)

(** An id string names a post when it casts to the [_id] of a stored
    document. *)
Definition names (st : Store) (id : string) : Prop :=
  ∃ oid, castObjectId id = Some oid ∧ is_Some (st !! oid).

(** What a status or assignment update never touches. *)
Record Untouched (post post' : Post) : Prop := {
  same_title : title post' = title post;
  same_description : description post' = description post;
  same_category : category post' = category post;
  same_location : location post' = location post;
  same_author : author post' = author post;
  same_imageUrl : imageUrl post' = imageUrl post;
  same_videoUrl : videoUrl post' = videoUrl post;
  same_likes : likes post' = likes post;
  same_upvotes : upvotes post' = upvotes post;
  same_shares : shares post' = shares post;
  same_comments : comments post' = comments post;
  same_createdAt : createdAt post' = createdAt post
}.

(** The toggle of the spec, on the array that stands for the set: "if userId
    present in the respective set, remove it; else add it". *)
Definition toggled (u : string) (l : list string) : list string :=
  if bool_decide (u ∈ l) then filter (λ v, v ≠ u) l else l ++ [u].

(** What the two toggle handlers promise about the array they edit:
    [before] is the array found, [after] the array saved, [count] and
    [member] the two fields of the response, and [again] the array a second
    toggle by the same caller saves. *)
Record Flipped (u : string) (before after again : list string)
    (count : nat) (member : bool) : Prop := {
  flipped_self : u ∈ after ↔ u ∉ before;
  flipped_others : ∀ v, v ≠ u → v ∈ after ↔ v ∈ before;
  flipped_count : count = length after;
  flipped_member : member = bool_decide (u ∈ after);
  flipped_back : list_to_set again =@{gset string} list_to_set before;
  flipped_back_perm : NoDup before → again ≡ₚ before
}.

(** ** The router and the collections it reaches *)

Module Router.

(** A request the router of the Post resource dispatches, with what the
    middleware in front of the handler supplies and what the handler draws
    from its environment (the clock, the [_id] minted for a new post). *)
Inductive Request :=
| GetPosts (query : gmap string string)
| GetUserPosts (user : AuthUser)
| GetPost (id : string)
| CreatePost (now uploadedAt : Z) (newId : ObjectId) (user : AuthUser)
    (body : gmap string JsValue) (media : option Multer.Upload)
| UpdatePost (now : Z) (id : string) (user : AuthUser) (body : gmap string JsValue)
| AddComment (now : Z) (id : string) (user : AuthUser) (body : gmap string JsValue)
| ToggleLike (now : Z) (id : string) (user : AuthUser)
| ToggleUpvote (now : Z) (id : string) (user : AuthUser).

Definition handle `{Numerics} `{GeoIndex} (st : Store) (r : Request) : Response * Store :=
  match r with
  | GetPosts query => getPosts st query
  | GetUserPosts user => getUserPosts st user
  | GetPost id => getPost st id
  | CreatePost now uploadedAt newId user body media =>
      createPost now uploadedAt newId st user body media
  | UpdatePost now id user body => updatePost now st id user body
  | AddComment now id user body => addComment now st id user body
  | ToggleLike now id user => toggleLike now st id user
  | ToggleUpvote now id user => toggleUpvote now st id user
  end.

Definition caller (r : Request) : option AuthUser :=
  match r with
  | GetPosts _ | GetPost _ => None
  | GetUserPosts user | CreatePost _ _ _ user _ _ | UpdatePost _ _ user _
  | AddComment _ _ user _ | ToggleLike _ _ user | ToggleUpvote _ _ user => Some user
  end.

(** Modelled from the spec: the auth middleware (not part of the sources)
    verifies the bearer credential and supplies the caller's user id, a
    "reference to User": the text of an ObjectId, as the token carries it. *)
Definition authentic (r : Request) : Prop :=
  ∀ user, caller r = Some user → castObjectId (userId user) = Some (userId user).

(** The collections the service can be in: it starts empty and changes
    through the handlers only. *)
Inductive reachable `{Numerics} `{GeoIndex} : Store → Prop :=
| reachable_empty : reachable ∅
| reachable_handle st r : reachable st → authentic r → reachable (handle st r).2.

End Router.

Import Router.

(** What PostSchema and the handlers keep true of a stored post. *)
Record Valid (post : Post) : Prop := {
  valid_title : title post ≠ "";
  valid_description : description post ≠ "";
  valid_category : category post ∈ categoryEnum;
  valid_point : validPoint (lng (location post)) (lat (location post)) = true;
  valid_status : status post ∈ statusEnum;
  valid_likes : NoDup (likes post);
  valid_upvotes : NoDup (upvotes post);
  valid_comments : Forall (λ c, text c ≠ "") (comments post)
}.

(** A valid Create payload: a title that is not blank, a description that
    is not empty, a category of the enum, and [lat] and [lng] that read as
    numbers within the bounds of the geospatial index. *)
Record ValidPayload `{Numerics} (body : gmap string JsValue) : Prop := {
  payload_title : ∃ t, castString (get body "title") = Some t ∧ trim t ≠ "";
  payload_description : ∃ d, castString (get body "description") = Some d ∧ d ≠ "";
  payload_category : ∃ c, castString (get body "category") = Some c ∧ c ∈ categoryEnum;
  payload_point : ∃ x y, parseFloatV (get body "lng") = Some x ∧
                         parseFloatV (get body "lat") = Some y ∧ validPoint x y = true
}.

(** A Create payload with a required field missing or malformed. *)
Inductive InvalidPayload `{Numerics} (body : gmap string JsValue) : Prop :=
| invalid_title :
    (∀ t, castString (get body "title") = Some t → trim t = "") → InvalidPayload body
| invalid_description :
    (∀ d, castString (get body "description") = Some d → d = "") → InvalidPayload body
| invalid_category :
    (∀ c, castString (get body "category") = Some c → c ∉ categoryEnum) →
    InvalidPayload body
| invalid_lat : parseFloatV (get body "lat") = None → InvalidPayload body
| invalid_lng : parseFloatV (get body "lng") = None → InvalidPayload body
| invalid_point x y :
    parseFloatV (get body "lng") = Some x → parseFloatV (get body "lat") = Some y →
    validPoint x y = false → InvalidPayload body.

(** An uploaded file that the upload middleware accepts, and one it refuses:
    by its type, or because it is over the size limit. *)
Definition accepted (file : Multer.Upload) : Prop :=
  Multer.fileFilter file = true ∧ (Multer.size file ≤ Multer.fileSize)%N.
Definition refused (file : Multer.Upload) : Prop :=
  Multer.fileFilter file = false ∨ (Multer.fileSize < Multer.size file)%N.

(** Nearest-first: the distances from the query point never decrease along
    the list. *)
Fixpoint ascending (distances : list Q) : bool :=
  match distances with
  | d1 :: (d2 :: _) as rest => Qle_bool d1 d2 && ascending rest
  | _ => true
  end.
Definition nearestFirst `{GeoIndex} (point : Q * Q) (posts : list Document) : bool :=
  ascending ((λ doc, distance point (lng (location doc.2), lat (location doc.2))) <$> posts).

(** What a [near] filter asks for: its first comma-separated part, read as
    a number, is the latitude, its second the longitude, and its third,
    when there is one, the radius in metres; without a third part the
    radius is 5000 metres. *)
Record Asks `{Numerics} (near : string) (lng0 lat0 radius : Q) : Prop := {
  asks_lat : ∃ s, split "," near !! 0%nat = Some s ∧ Number s = Some lat0;
  asks_lng : ∃ s, split "," near !! 1%nat = Some s ∧ Number s = Some lng0;
  asks_radius : match split "," near !! 2%nat with
                | Some s => Number s = Some radius
                | None => radius = 5000%Q
                end
}.

(** The values the specification lists for [status]. *)
Definition specStatusEnum : list string := ["reported"; "in_progress"; "resolved"].

(** No user is twice among the likes or twice among the upvotes of a post. *)
Definition DupFree (st : Store) : Prop :=
  ∀ oid post, st !! oid = Some post → NoDup (likes post) ∧ NoDup (upvotes post).

(** What no handler changes in a stored post, and what it only extends. *)
Record Evolves (post post' : Post) : Prop := {
  keeps_title : title post' = title post;
  keeps_description : description post' = description post;
  keeps_category : category post' = category post;
  keeps_location : location post' = location post;
  keeps_imageUrl : imageUrl post' = imageUrl post;
  keeps_videoUrl : videoUrl post' = videoUrl post;
  keeps_author : author post' = author post;
  keeps_shares : shares post' = shares post;
  keeps_createdAt : createdAt post' = createdAt post;
  extends_comments : comments post `prefix_of` comments post'
}.

(** The ways one request can change the collection: not at all, by
    rewriting one stored post, or by inserting a new post under a fresh
    [_id]. *)
Inductive Step `{Numerics} (st : Store) : Store → Prop :=
| step_none : Step st st
| step_edit oid post post' :
    st !! oid = Some post → Evolves post post' → Step st (<[oid := post']> st)
| step_new newId now user body file post :
    st !! newId = None → newPost now user body file = Return post →
    Step st (<[newId := post]> st).

(** The collection after each of [users] in turn has sent a like for the
    post [id]. *)
Definition likesBy (now : Z) (id : string) (users : list AuthUser) (st : Store) : Store :=
  foldl (λ st user, (toggleLike now st id user).2) st users.

(** * Properties *)

(** Case analysis on the test a handler branches on next. *)
Ltac case_branch :=
  match goal with
  | |- context [tryCatch _ (if ?b then _ else _)] => destruct b eqn:?; simpl
  end.

(** ** The worked data *)

Lemma store1_pothole : Data.store1 !! Data.pothole = Some Data.potholePost.
Proof. by vm_compute. Qed.

Lemma store1_lamp : Data.store1 !! Data.lamp = None.
Proof. by vm_compute. Qed.

(** ** Looking a post up *)

Lemma castObjectId_Some s oid : castObjectId s = Some oid → oid = toLowerCase s.
Proof. unfold castObjectId. case_match; congruence. Qed.

Section Lookup.

Variable st : Store.

Lemma findById_malformed id :
  castObjectId id = None → findById st id = Throw (CastError "_id").
Proof. intros Hid. unfold findById. by rewrite Hid. Qed.

Lemma findById_absent id oid :
  castObjectId id = Some oid → st !! oid = None → findById st id = Return None.
Proof. intros Hid Hst. unfold findById. by rewrite Hid, Hst. Qed.

Lemma findById_present id oid post :
  castObjectId id = Some oid → st !! oid = Some post →
  findById st id = Return (Some (oid, post)).
Proof. intros Hid Hst. unfold findById. by rewrite Hid, Hst. Qed.

Lemma not_names_absent id oid :
  ¬ names st id → castObjectId id = Some oid → st !! oid = None.
Proof.
  intros Hno Hid. destruct (st !! oid) as [post|] eqn:Hst; [|done].
  destruct Hno. exists oid. eauto.
Qed.

End Lookup.

(** ** GET /:id *)

(** C5, as stated, fails: the id ["abc"] names no post, and [GET /abc] is
    answered with a server error, because the lookup rejects an id that is
    not an ObjectId and the handler's [catch] answers every rejection with
    500. *)
Example getPost_malformed_id :
  (∅ : Store) !! "abc" = None ∧
  getPost ∅ "abc" = (serverError (CastError "_id"), ∅) ∧
  statusCode (getPost ∅ "abc").1 = 500%nat.
Proof. by vm_compute. Qed.

(** C5, amended: for every id string that names no post, GetById answers
    NotFound when the string is a well-formed ObjectId (24 hex digits), and
    500 with the cast error when it is not; the collection is left as it
    was. *)
Theorem getPost_absent st id :
  ¬ names st id →
  getPost st id =
    (if castObjectId id is Some _ then notFound else serverError (CastError "_id"), st).
Proof.
  intros Hno. unfold getPost.
  destruct (castObjectId id) as [oid|] eqn:Hid.
  - by rewrite (findById_absent st id oid Hid (not_names_absent st id oid Hno Hid)).
  - by rewrite findById_malformed.
Qed.

Lemma getPost_absent_witness :
  getPost Data.store1 Data.lamp = (notFound, Data.store1) ∧
  getPost Data.store1 "lamp" = (serverError (CastError "_id"), Data.store1).
Proof.
  split.
  - apply (getPost_absent Data.store1 Data.lamp).
    intros (oid & Hid & Hst). vm_compute in Hid. injection Hid as <-.
    vm_compute in Hst. by destruct Hst.
  - apply (getPost_absent Data.store1 "lamp").
    intros (oid & Hid & _). vm_compute in Hid. discriminate.
Defined.

(** ** PUT /:id *)

Lemma Untouched_refl post : Untouched post post.
Proof. by split. Qed.

Lemma Untouched_stamp now old new : Untouched old new → Untouched old (stamp now old new).
Proof. unfold stamp. case_decide; [done|]. by intros []. Qed.

Lemma status_stamp now old new : status (stamp now old new) = status new.
Proof. unfold stamp. by case_decide. Qed.

Lemma assignedTo_stamp now old new : assignedTo (stamp now old new) = assignedTo new.
Proof. unfold stamp. by case_decide. Qed.

Section Update.

Variables (now : Z) (st : Store) (id : string) (user : AuthUser).
Variable body : gmap string JsValue.
Variables (oid : string) (post : Post).
Hypothesis Hid : castObjectId id = Some oid.
Hypothesis Hpost : st !! oid = Some post.

(** The only document an update can write is the one it was asked for; in
    it, only [status] and [assignedTo] (and the [updatedAt] stamp) can
    differ, each only towards the truthy value the request carries, and
    [status] only towards a member of its enum. *)
Lemma updatePost_effect :
  ∃ post',
    (updatePost now st id user body).2 !! oid = Some post' ∧
    (∀ oid', oid' ≠ oid → (updatePost now st id user body).2 !! oid' = st !! oid') ∧
    Untouched post post' ∧
    (status post' = status post ∨
     truthy (get body "status") = true ∧ status post' = toString (get body "status") ∧
     toString (get body "status") ∈ statusEnum) ∧
    (assignedTo post' = assignedTo post ∨
     truthy (get body "assignedTo") = true ∧
     assignedTo post' = Some (toLowerCase (toString (get body "assignedTo")))).
Proof.
  unfold updatePost.
  rewrite (findById_present st id oid post Hid Hpost). simpl.
  assert (Hkeep : ∃ post', st !! oid = Some post' ∧
            (∀ oid', oid' ≠ oid → st !! oid' = st !! oid') ∧ Untouched post post' ∧
            (status post' = status post ∨ truthy (get body "status") = true ∧
               status post' = toString (get body "status") ∧
               toString (get body "status") ∈ statusEnum) ∧
            (assignedTo post' = assignedTo post ∨ truthy (get body "assignedTo") = true ∧
               assignedTo post' = Some (toLowerCase (toString (get body "assignedTo"))))).
  { exists post. split_and!; auto using Untouched_refl. }
  case_branch; [exact Hkeep|]. case_branch; [exact Hkeep|].
  match goal with H : bool_decide (_ ≠ []) = false |- _ =>
    apply bool_decide_eq_false in H; apply dec_stable, app_eq_nil in H as [Hvalid _] end.
  eexists. split; [apply lookup_insert_eq|].
  split; [intros oid' Hne; unfold save; by rewrite lookup_insert_ne|].
  rewrite status_stamp, assignedTo_stamp.
  assert (Hstatus : truthy (get body "status") = true →
            toString (get body "status") = status post ∨
            toString (get body "status") ∈ statusEnum).
  { intros Hs. rewrite Hs in Hvalid. simpl in Hvalid.
    destruct (decide (toString (get body "status") = status post)); [by left|right].
    rewrite bool_decide_eq_true_2 in Hvalid by done. simpl in Hvalid.
    by case_bool_decide as Hin. }
  destruct (truthy (get body "status")) eqn:Hs, (truthy (get body "assignedTo")) eqn:Ha,
    (castObjectId (toString (get body "assignedTo"))) as [a|] eqn:Hc;
    try apply castObjectId_Some in Hc as ->;
    (split; [by apply Untouched_stamp|]); simpl; auto;
    (destruct Hstatus as [Hsame|Hin]; [done | rewrite Hsame | ]; auto).
Qed.

End Update.

(** C2, as stated, fails on its first half: no post has the id ["abc"], yet
    [PUT /abc] is answered 500 and not 404, because the lookup rejects an id
    that is not an ObjectId before the handler can test for absence. *)
Example updatePost_malformed_id :
  (∅ : Store) !! "abc" = None ∧
  updatePost 0 ∅ "abc" Data.clerk {[ "status" := VString "resolved" ]}
    = (serverError (CastError "_id"), ∅).
Proof. by vm_compute. Qed.

(** C2, amended: UpdateStatusOrAssignment answers an id that is not a
    well-formed ObjectId with 500 and the cast error; for a well-formed id
    it fails with NotFound when no post has that id, and fails with
    Forbidden for every caller who is neither the author of the post nor of
    role "municipal", whatever the payload.  In all three cases the
    collection is left as it was. *)
Theorem updatePost_refuses now st id user body :
  (castObjectId id = None →
   updatePost now st id user body = (serverError (CastError "_id"), st)) ∧
  (∀ oid, castObjectId id = Some oid → st !! oid = None →
     updatePost now st id user body = (notFound, st)) ∧
  (∀ oid post, castObjectId id = Some oid → st !! oid = Some post →
     author post ≠ userId user → role user ≠ "municipal" →
     updatePost now st id user body = (notAuthorized, st)).
Proof.
  split_and!.
  - intros Hid. unfold updatePost. by rewrite findById_malformed.
  - intros oid Hid Hst. unfold updatePost. by rewrite (findById_absent st id oid).
  - intros oid post Hid Hst Hauthor Hrole. unfold updatePost.
    rewrite (findById_present st id oid post Hid Hst). simpl.
    by rewrite (bool_decide_eq_true_2 _ Hauthor), (bool_decide_eq_true_2 _ Hrole).
Qed.

Lemma updatePost_refuses_witness :
  updatePost 2000 Data.store1 "lamp" Data.clerk {[ "status" := VString "resolved" ]}
    = (serverError (CastError "_id"), Data.store1) ∧
  updatePost 2000 Data.store1 Data.lamp Data.clerk {[ "status" := VString "resolved" ]}
    = (notFound, Data.store1) ∧
  updatePost 2000 Data.store1 Data.pothole Data.bob {[ "status" := VString "resolved" ]}
    = (notAuthorized, Data.store1).
Proof.
  split_and!.
  - by apply (updatePost_refuses 2000 Data.store1 "lamp" Data.clerk).
  - apply (updatePost_refuses 2000 Data.store1 Data.lamp Data.clerk) with Data.lamp;
      [reflexivity | apply store1_lamp].
  - apply (updatePost_refuses 2000 Data.store1 Data.pothole Data.bob)
      with Data.pothole Data.potholePost;
      [reflexivity | apply store1_pothole | discriminate | discriminate].
Defined.

(** C8: an update writes nothing but the post it names, and in that post
    nothing but [status] and [assignedTo]: title, description, category,
    location, author, media URLs, likes, upvotes, shares and comments are as
    before, and a field the request leaves out keeps its value. *)
Theorem updatePost_frame now st id oid user body post :
  castObjectId id = Some oid → st !! oid = Some post →
  ∃ post',
    (updatePost now st id user body).2 !! oid = Some post' ∧
    Untouched post post' ∧
    (get body "status" = VUndefined → status post' = status post) ∧
    (get body "assignedTo" = VUndefined → assignedTo post' = assignedTo post) ∧
    (∀ oid', oid' ≠ oid → (updatePost now st id user body).2 !! oid' = st !! oid').
Proof.
  intros Hid Hst.
  destruct (updatePost_effect now st id user body oid post Hid Hst)
    as (post' & Hpost' & Hothers & Hframe & Hstatus & Hassigned).
  exists post'. split_and!; auto.
  - intros Hnone. destruct Hstatus as [|[Htruthy _]]; [done|].
    rewrite Hnone in Htruthy. discriminate.
  - intros Hnone. destruct Hassigned as [|[Htruthy _]]; [done|].
    rewrite Hnone in Htruthy. discriminate.
Qed.

Lemma updatePost_frame_witness :
  ∃ post',
    (updatePost 2000 Data.store1 Data.pothole Data.clerk
       {[ "assignedTo" := VString (userId Data.clerk); "title" := VString "Crater" ]}).2
      !! Data.pothole = Some post' ∧
    Untouched Data.potholePost post' ∧
    status post' = "reported".
Proof.
  destruct (updatePost_frame 2000 Data.store1 Data.pothole Data.pothole Data.clerk
              {[ "assignedTo" := VString (userId Data.clerk); "title" := VString "Crater" ]}
              Data.potholePost eq_refl store1_pothole)
    as (post' & Hpost' & Hframe & Hstatus & _).
  exists post'. split_and!; [exact Hpost' | exact Hframe | exact (Hstatus eq_refl)].
Defined.

(** What an update reads of its payload is [status] and [assignedTo], and
    of a falsy value only that it is falsy. *)
Lemma updatePost_reads now st id user body body' :
  (if truthy (get body "status") then get body' "status" = get body "status"
   else truthy (get body' "status") = false) →
  (if truthy (get body "assignedTo") then get body' "assignedTo" = get body "assignedTo"
   else truthy (get body' "assignedTo") = false) →
  updatePost now st id user body' = updatePost now st id user body.
Proof.
  intros Hstatus Hassigned. unfold updatePost.
  destruct (truthy (get body "status")) eqn:Hs;
    destruct (truthy (get body "assignedTo")) eqn:Ha;
    rewrite ?Hstatus, ?Hassigned, ?Hs, ?Ha; reflexivity.
Qed.

Lemma get_delete_eq (body : gmap string JsValue) k : get (delete k body) k = VUndefined.
Proof. unfold get. by rewrite lookup_delete_eq. Qed.

Lemma get_delete_ne (body : gmap string JsValue) k k' :
  k ≠ k' → get (delete k body) k' = get body k'.
Proof. intros Hne. unfold get. by rewrite lookup_delete_ne. Qed.

(** C10: a falsy [status] (the empty string) or [assignedTo] ([null], the
    empty string, [false]) is passed over: the field keeps its value, the
    request is answered and stored exactly as the same request without the
    field, and a request carrying only such values leaves the collection as
    it was.  An update therefore never takes an assignee away: a post that
    has one still has one afterwards. *)
Theorem updatePost_falsy_ignored now st id oid user body post :
  castObjectId id = Some oid → st !! oid = Some post →
  (∃ post',
     (updatePost now st id user body).2 !! oid = Some post' ∧
     (truthy (get body "status") = false → status post' = status post) ∧
     (truthy (get body "assignedTo") = false → assignedTo post' = assignedTo post) ∧
     (is_Some (assignedTo post) → is_Some (assignedTo post'))) ∧
  (truthy (get body "status") = false →
   updatePost now st id user body = updatePost now st id user (delete "status" body)) ∧
  (truthy (get body "assignedTo") = false →
   updatePost now st id user body = updatePost now st id user (delete "assignedTo" body)) ∧
  (truthy (get body "status") = false → truthy (get body "assignedTo") = false →
   (updatePost now st id user body).2 = st).
Proof.
  intros Hid Hst. split_and!.
  - destruct (updatePost_effect now st id user body oid post Hid Hst)
      as (post' & Hpost' & _ & _ & Hstatus & Hassigned).
    exists post'. split_and!; auto.
    + intros Hfalsy. destruct Hstatus as [|[Htruthy _]]; congruence.
    + intros Hfalsy. destruct Hassigned as [|[Htruthy _]]; congruence.
    + intros Hsome. destruct Hassigned as [->|[_ ->]]; eauto.
  - intros Hstatus. symmetry. apply updatePost_reads.
    + by rewrite Hstatus, get_delete_eq.
    + rewrite get_delete_ne by done. by destruct (truthy (get body "assignedTo")).
  - intros Hassigned. symmetry. apply updatePost_reads.
    + rewrite get_delete_ne by done. by destruct (truthy (get body "status")).
    + by rewrite Hassigned, get_delete_eq.
  - intros Hstatus Hassigned. unfold updatePost.
    rewrite (findById_present st id oid post Hid Hst). simpl.
    rewrite Hstatus, Hassigned. simpl. case_branch; [done|].
    unfold save, stamp. rewrite decide_True by done.
    by rewrite insert_id.
Qed.

Lemma updatePost_falsy_ignored_witness :
  updatePost 2000 Data.store1 Data.pothole Data.alice
    {[ "status" := VString ""; "assignedTo" := VNull ]}
    = updatePost 2000 Data.store1 Data.pothole Data.alice {[ "assignedTo" := VNull ]} ∧
  (updatePost 2000 Data.store1 Data.pothole Data.alice
     {[ "status" := VString ""; "assignedTo" := VNull ]}).2 = Data.store1.
Proof.
  destruct (updatePost_falsy_ignored 2000 Data.store1 Data.pothole Data.pothole
              Data.alice {[ "status" := VString ""; "assignedTo" := VNull ]}
              Data.potholePost eq_refl store1_pothole) as (_ & Hstatus & _ & Hstore).
  split; [exact (Hstatus eq_refl) | exact (Hstore eq_refl eq_refl)].
Defined.

(** ** POST /:id/like and POST /:id/upvote *)

Section Toggled.

Variable u : string.
Implicit Types l : list string.

Lemma toggled_self l : u ∈ toggled u l ↔ u ∉ l.
Proof.
  unfold toggled. case_bool_decide as Hin.
  - rewrite list_elem_of_filter. tauto.
  - rewrite elem_of_app, list_elem_of_singleton. tauto.
Qed.

Lemma toggled_others l v : v ≠ u → v ∈ toggled u l ↔ v ∈ l.
Proof.
  intros Hne. unfold toggled. case_bool_decide.
  - rewrite list_elem_of_filter. tauto.
  - rewrite elem_of_app, list_elem_of_singleton. tauto.
Qed.

Lemma toggled_twice_elem l v : v ∈ toggled u (toggled u l) ↔ v ∈ l.
Proof.
  destruct (decide (v = u)) as [->|Hne].
  - rewrite !toggled_self. destruct (decide (u ∈ l)); tauto.
  - by rewrite !toggled_others.
Qed.

Lemma toggled_twice_set l :
  list_to_set (toggled u (toggled u l)) =@{gset string} list_to_set l.
Proof. apply set_eq. intros v. rewrite !elem_of_list_to_set. apply toggled_twice_elem. Qed.

Lemma toggled_NoDup l : NoDup l → NoDup (toggled u l).
Proof.
  intros Hl. unfold toggled. case_bool_decide as Hin.
  - by apply NoDup_filter.
  - apply NoDup_app. split_and!; [done | | apply NoDup_singleton].
    intros v Hv ->%list_elem_of_singleton. done.
Qed.

Lemma toggled_twice_perm l : NoDup l → toggled u (toggled u l) ≡ₚ l.
Proof.
  intros Hl. apply NoDup_Permutation; auto using toggled_NoDup, toggled_twice_elem.
Qed.

End Toggled.

Lemma toggled_Flipped u l :
  Flipped u l (toggled u l) (toggled u (toggled u l))
    (length (toggled u l)) (negb (bool_decide (u ∈ l))).
Proof.
  split; auto using toggled_self, toggled_others, toggled_twice_set, toggled_twice_perm.
  pose proof (toggled_self u l). repeat case_bool_decide; simpl; tauto.
Qed.

Lemma likes_stamp now old new : likes (stamp now old new) = likes new.
Proof. unfold stamp. by case_decide. Qed.

Lemma upvotes_stamp now old new : upvotes (stamp now old new) = upvotes new.
Proof. unfold stamp. by case_decide. Qed.

Section Toggle.

Variables (now : Z) (st : Store) (id : string) (user : AuthUser).
Variables (oid : string) (post : Post).
Hypothesis Hid : castObjectId id = Some oid.
Hypothesis Hpost : st !! oid = Some post.
(* the caller's id is the text of an ObjectId *)
Hypothesis Huser : castObjectId (userId user) = Some (userId user).

(** Both handlers refine [toggled]. *)
Lemma toggleLike_toggled :
  toggleLike now st id user =
    (json (JLikes (length (toggled (userId user) (likes post)))
                  (negb (bool_decide (userId user ∈ likes post)))),
     save now st oid post (set_likes (toggled (userId user) (likes post)) post)).
Proof.
  unfold toggleLike. rewrite (findById_present st id oid post Hid Hpost). simpl.
  unfold toggled, includes, push. rewrite Huser. by case_bool_decide.
Qed.

Lemma toggleUpvote_toggled :
  toggleUpvote now st id user =
    (json (JUpvotes (length (toggled (userId user) (upvotes post)))
                    (negb (bool_decide (userId user ∈ upvotes post)))),
     save now st oid post (set_upvotes (toggled (userId user) (upvotes post)) post)).
Proof.
  unfold toggleUpvote. rewrite (findById_present st id oid post Hid Hpost). simpl.
  unfold toggled, includes, push. rewrite Huser. by case_bool_decide.
Qed.

End Toggle.

(** C1: ToggleLike and ToggleUpvote flip the caller's membership.  For every
    stored post and every user, the toggle removes the user from the array
    when the user is in it and adds the user otherwise, leaves every other
    member alone, and answers with the new count and the caller's new
    membership; a second toggle by the same user brings the original set
    back (and, the array being duplicate-free, the same members in the same
    number). *)
Theorem toggle_flips now now' st id oid user post :
  castObjectId id = Some oid → st !! oid = Some post →
  castObjectId (userId user) = Some (userId user) →
  (∃ post1 post2 count member,
     toggleLike now st id user = (json (JLikes count member), <[oid := post1]> st) ∧
     (toggleLike now' (<[oid := post1]> st) id user).2 !! oid = Some post2 ∧
     Flipped (userId user) (likes post) (likes post1) (likes post2) count member) ∧
  (∃ post1 post2 count member,
     toggleUpvote now st id user = (json (JUpvotes count member), <[oid := post1]> st) ∧
     (toggleUpvote now' (<[oid := post1]> st) id user).2 !! oid = Some post2 ∧
     Flipped (userId user) (upvotes post) (upvotes post1) (upvotes post2) count member).
Proof.
  intros Hid Hpost Huser. split.
  - rewrite (toggleLike_toggled now st id user oid post Hid Hpost Huser).
    do 4 eexists. split; [reflexivity|].
    erewrite (toggleLike_toggled now' _ id user oid _ Hid (lookup_insert_eq _ _ _) Huser).
    split; [apply lookup_insert_eq|].
    rewrite !likes_stamp. apply toggled_Flipped.
  - rewrite (toggleUpvote_toggled now st id user oid post Hid Hpost Huser).
    do 4 eexists. split; [reflexivity|].
    erewrite (toggleUpvote_toggled now' _ id user oid _ Hid (lookup_insert_eq _ _ _) Huser).
    split; [apply lookup_insert_eq|].
    rewrite !upvotes_stamp. apply toggled_Flipped.
Qed.

Lemma toggle_flips_witness :
  (∃ post1 post2 count member,
     toggleLike 2000 Data.store1 Data.pothole Data.bob
       = (json (JLikes count member), <[Data.pothole := post1]> Data.store1) ∧
     (toggleLike 3000 (<[Data.pothole := post1]> Data.store1) Data.pothole Data.bob).2
       !! Data.pothole = Some post2 ∧
     Flipped (userId Data.bob) (likes Data.potholePost) (likes post1) (likes post2)
       count member) ∧
  (∃ post1 post2 count member,
     toggleUpvote 2000 Data.store1 Data.pothole Data.bob
       = (json (JUpvotes count member), <[Data.pothole := post1]> Data.store1) ∧
     (toggleUpvote 3000 (<[Data.pothole := post1]> Data.store1) Data.pothole Data.bob).2
       !! Data.pothole = Some post2 ∧
     Flipped (userId Data.bob) (upvotes Data.potholePost) (upvotes post1) (upvotes post2)
       count member).
Proof.
  apply (toggle_flips 2000 3000 Data.store1 Data.pothole Data.pothole Data.bob
           Data.potholePost eq_refl store1_pothole eq_refl).
Defined.

(** The first like of the pothole, and its withdrawal. *)
Example like_then_unlike :
  (toggleLike 2000 Data.store1 Data.pothole Data.bob).1 = json (JLikes 1 true) ∧
  (toggleLike 3000 (toggleLike 2000 Data.store1 Data.pothole Data.bob).2
     Data.pothole Data.bob).1 = json (JLikes 0 false).
Proof. by vm_compute. Qed.

(** ** The schema invariant *)

Lemma required_Some v s : required v = Some s → v = Some s ∧ s ≠ "".
Proof. destruct v as [s'|]; simpl; [|done]. case_bool_decide; naive_solver. Qed.

Lemma oneOf_Some enum v s : oneOf enum v = Some s → v = Some s ∧ s ∈ enum.
Proof. destruct v as [s'|]; simpl; [|done]. case_bool_decide; naive_solver. Qed.

Lemma required_nonempty s : s ≠ "" → required (Some s) = Some s.
Proof. intros Hs. unfold required. by rewrite bool_decide_eq_true_2. Qed.

Lemma oneOf_member enum s : s ∈ enum → oneOf enum (Some s) = Some s.
Proof. intros Hs. unfold oneOf. by rewrite bool_decide_eq_true_2. Qed.

Lemma categoryEnum_nonempty c : c ∈ categoryEnum → c ≠ "".
Proof.
  intros Hc ->. revert Hc. by apply (proj1 (bool_decide_eq_false ("" ∈ categoryEnum))).
Qed.

Lemma Valid_stamp now old new : Valid new → Valid (stamp now old new).
Proof. unfold stamp. case_decide; [done|]. by intros []. Qed.

Lemma Valid_save now st oid old new :
  map_Forall (λ _, Valid) st → Valid new → map_Forall (λ _, Valid) (save now st oid old new).
Proof. intros Hst Hnew. apply map_Forall_insert_2; auto using Valid_stamp. Qed.

Section Invariant.

Context `{Numerics} `{GeoIndex}.
Variable st : Store.
Hypothesis Hst : map_Forall (λ _, Valid) st.

Lemma getPosts_store query : (getPosts st query).2 = st.
Proof.
  unfold getPosts. destruct (given query "near") as [near|]; simpl.
  - destruct (nearQuery near); simpl; [|done]. by destruct (paginate _ _).
  - by destruct (paginate _ _).
Qed.

Lemma getUserPosts_store user : (getUserPosts st user).2 = st.
Proof. unfold getUserPosts. by destruct (castObjectId _). Qed.

Lemma getPost_store id : (getPost st id).2 = st.
Proof. unfold getPost, findById. destruct (castObjectId id); [|done]. by destruct (st !! _). Qed.

Lemma newPost_Valid now user body file post :
  newPost now user body file = Return post →
  validPoint (lng (location post)) (lat (location post)) = true →
  Valid post ∧ status post = "reported".
Proof.
  unfold newPost. intros Hnew Hpoint.
  destruct (required (trim <$> _)) as [t|] eqn:Ht; [|done].
  destruct (required (castString (get body "description"))) as [d|] eqn:Hd; [|done].
  destruct (oneOf _ _) as [c|] eqn:Hc; [|done].
  destruct (parseFloatV (get body "lng")) as [x|]; [|done].
  destruct (parseFloatV (get body "lat")) as [y|]; [|done].
  destruct (castObjectId (userId user)) as [a|]; [|done].
  injection Hnew as <-. simpl in *.
  apply required_Some in Ht as [_ Ht], Hd as [_ Hd]. apply oneOf_Some in Hc as [_ Hc].
  split; [|done]. split; simpl; auto using NoDup_nil_2.
  unfold statusEnum. constructor.
Qed.

Lemma createPost_Valid now uploadedAt newId user body media :
  map_Forall (λ _, Valid) (createPost now uploadedAt newId st user body media).2.
Proof.
  unfold createPost. destruct (Multer.single _ _) as [file|]; [|done].
  destruct (newPost now user body file) as [post|] eqn:Hnew; [|done]. simpl.
  unfold saveNew. destruct (validPoint _ _) eqn:Hpoint; [|done]. simpl.
  case_bool_decide; [done|]. simpl.
  apply map_Forall_insert_2; [|done]. by eapply newPost_Valid.
Qed.

Lemma updatePost_Valid now id user body :
  map_Forall (λ _, Valid) (updatePost now st id user body).2.
Proof.
  destruct (castObjectId id) as [oid|] eqn:Hid;
    [|by unfold updatePost; rewrite findById_malformed].
  destruct (st !! oid) as [post|] eqn:Hpost;
    [|by unfold updatePost; rewrite (findById_absent st id oid)].
  destruct (updatePost_effect now st id user body oid post Hid Hpost)
    as (post' & Hpost' & Hothers & [] & Hstatus & _).
  pose proof (Hst oid post Hpost) as [].
  intros k p Hp. destruct (decide (k = oid)) as [->|Hne].
  - rewrite Hpost' in Hp. injection Hp as <-. split; try congruence.
    destruct Hstatus as [->|(_ & -> & Hin)]; done.
  - rewrite Hothers in Hp by done. by apply (Hst k).
Qed.

Lemma addComment_Valid now id user body :
  map_Forall (λ _, Valid) (addComment now st id user body).2.
Proof.
  unfold addComment.
  destruct (castObjectId id) as [oid|] eqn:Hid; [|by rewrite findById_malformed].
  destruct (st !! oid) as [post|] eqn:Hpost; [|by rewrite (findById_absent st id oid)].
  rewrite (findById_present st id oid post Hid Hpost). simpl.
  destruct (castObjectId (userId user)); [|done].
  destruct (required _) as [t|] eqn:Ht; [|done]. simpl.
  apply required_Some in Ht as [_ Ht].
  apply Valid_save; [done|]. destruct (Hst oid post Hpost). split; simpl; try done.
  apply Forall_app. split; [done|]. by apply Forall_singleton.
Qed.

Lemma toggleLike_Valid now id user :
  castObjectId (userId user) = Some (userId user) →
  map_Forall (λ _, Valid) (toggleLike now st id user).2.
Proof.
  intros Huser.
  destruct (castObjectId id) as [oid|] eqn:Hid;
    [|by unfold toggleLike; rewrite findById_malformed].
  destruct (st !! oid) as [post|] eqn:Hpost;
    [|by unfold toggleLike; rewrite (findById_absent st id oid)].
  rewrite (toggleLike_toggled now st id user oid post Hid Hpost Huser). simpl.
  apply Valid_save; [done|]. destruct (Hst oid post Hpost).
  split; simpl; auto using toggled_NoDup.
Qed.

Lemma toggleUpvote_Valid now id user :
  castObjectId (userId user) = Some (userId user) →
  map_Forall (λ _, Valid) (toggleUpvote now st id user).2.
Proof.
  intros Huser.
  destruct (castObjectId id) as [oid|] eqn:Hid;
    [|by unfold toggleUpvote; rewrite findById_malformed].
  destruct (st !! oid) as [post|] eqn:Hpost;
    [|by unfold toggleUpvote; rewrite (findById_absent st id oid)].
  rewrite (toggleUpvote_toggled now st id user oid post Hid Hpost Huser). simpl.
  apply Valid_save; [done|]. destruct (Hst oid post Hpost).
  split; simpl; auto using toggled_NoDup.
Qed.

(** Every request of an authenticated caller keeps the schema invariant. *)
Lemma handle_Valid r : authentic r → map_Forall (λ _, Valid) (handle st r).2.
Proof.
  intros Hr. destruct r; simpl.
  - by rewrite getPosts_store.
  - by rewrite getUserPosts_store.
  - by rewrite getPost_store.
  - apply createPost_Valid.
  - apply updatePost_Valid.
  - apply addComment_Valid.
  - apply toggleLike_Valid. by apply Hr.
  - apply toggleUpvote_Valid. by apply Hr.
Qed.

End Invariant.

Lemma reachable_Valid `{Numerics} `{GeoIndex} st :
  reachable st → map_Forall (λ _, Valid) st.
Proof.
  induction 1 as [|st r _ IH Hr]; [apply map_Forall_empty|]. by apply handle_Valid.
Qed.

(** ** Reachable collections *)

Lemma store1_reachable : reachable (H := Sample.decimal) (H0 := Sample.grid) Data.store1.
Proof.
  apply (reachable_handle (H := Sample.decimal) (H0 := Sample.grid) ∅
           (CreatePost 1000 999 Data.pothole Data.alice
              (Data.report "Pothole" "40.0" "-75.0") None)).
  - apply reachable_empty.
  - by intros user [= <-].
Qed.

Lemma store2_reachable : reachable (H := Sample.decimal) (H0 := Sample.grid) Data.store2.
Proof.
  apply (reachable_handle (H := Sample.decimal) (H0 := Sample.grid) Data.store1
           (UpdatePost 2000 Data.pothole Data.alice {[ "status" := VString "in progress" ]})).
  - apply store1_reachable.
  - by intros user [= <-].
Qed.

(** C9: in every reachable collection the likes and the upvotes of a post
    hold no user twice, and whatever request an authenticated caller sends
    next (ToggleLike and ToggleUpvote among them), they still hold none
    twice afterwards. *)
Theorem votes_dup_free `{Numerics} `{GeoIndex} st :
  reachable st →
  DupFree st ∧ ∀ r, authentic r → DupFree (handle st r).2.
Proof.
  intros Hst. split.
  - intros oid post Hpost. by destruct (reachable_Valid st Hst oid post Hpost).
  - intros r Hr oid post Hpost.
    by destruct (reachable_Valid _ (reachable_handle st r Hst Hr) oid post Hpost).
Qed.

Lemma votes_dup_free_witness :
  DupFree Data.store1 ∧
  ∀ r, authentic r → DupFree (handle (H := Sample.decimal) (H0 := Sample.grid) Data.store1 r).2.
Proof.
  apply (votes_dup_free (H := Sample.decimal) (H0 := Sample.grid) Data.store1
           store1_reachable).
Defined.

(** Three toggles by bob leave him once among the likes. *)
Example like_unlike_like :
  likes <$> (toggleLike 4000
               (toggleLike 3000 (toggleLike 2000 Data.store1 Data.pothole Data.bob).2
                  Data.pothole Data.bob).2
               Data.pothole Data.bob).2 !! Data.pothole
    = Some [userId Data.bob].
Proof. by vm_compute. Qed.

(** C7, as stated, fails: the collection [Data.store2] is reachable (alice
    reports a pothole, then marks it as under way), and the status of its
    post, ["in progress"], is none of the three values the specification
    lists; the value the specification spells ["in_progress"] is one the
    schema refuses. *)
Example status_outside_spec_enum :
  reachable (H := Sample.decimal) (H0 := Sample.grid) Data.store2 ∧
  status <$> Data.store2 !! Data.pothole = Some "in progress" ∧
  bool_decide ("in progress" ∈ specStatusEnum) = false ∧
  (updatePost 2000 Data.store1 Data.pothole Data.alice
     {[ "status" := VString "in_progress" ]}).1 = serverError (ValidationError ["status"]).
Proof. split; [apply store2_reachable | by vm_compute]. Qed.

(** C7, amended: for every reachable post, the status field is one of
    exactly "reported", "in progress" (with a space) and "resolved", the
    enum of PostSchema; and a post that Create has just answered with is
    stored with status "reported". *)
Theorem status_in_enum `{Numerics} `{GeoIndex} st :
  reachable st →
  (∀ oid post, st !! oid = Some post →
     status post ∈ ["reported"; "in progress"; "resolved"]) ∧
  (∀ now uploadedAt newId user body media doc st',
     createPost now uploadedAt newId st user body media = (status_json 201 (JPost doc), st') →
     status doc.2 = "reported" ∧ st' !! doc.1 = Some doc.2).
Proof.
  intros Hst. split.
  - intros oid post Hpost. by destruct (reachable_Valid st Hst oid post Hpost).
  - intros now uploadedAt newId user body media doc st'. unfold createPost.
    destruct (Multer.single _ _) as [file|]; [|done].
    destruct (newPost now user body file) as [post|] eqn:Hnew; [|done]. simpl.
    unfold saveNew. destruct (validPoint _ _) eqn:Hpoint; [|done]. simpl.
    case_bool_decide; [done|]. simpl. intros [= <- <-]. simpl.
    split; [|apply lookup_insert_eq]. by eapply newPost_Valid.
Qed.

Lemma status_in_enum_witness :
  (∀ oid post, Data.store2 !! oid = Some post →
     status post ∈ ["reported"; "in progress"; "resolved"]) ∧
  (∀ now uploadedAt newId user body media doc st',
     createPost (H := Sample.decimal) now uploadedAt newId Data.store2 user body media
       = (status_json 201 (JPost doc), st') →
     status doc.2 = "reported" ∧ st' !! doc.1 = Some doc.2).
Proof.
  apply (status_in_enum (H := Sample.decimal) (H0 := Sample.grid) Data.store2
           store2_reachable).
Defined.

(** ** What a request is answered with *)

Ltac settle :=
  simpl;
  solve [ left; repeat constructor
        | right; split; [repeat constructor | left; reflexivity]
        | right; split; [repeat constructor | right; split; [reflexivity | by repeat eexists]] ].

(** A request is answered 200 or 201, or it is answered 403, 404 or 500;
    then the collection is as it was, unless the request is an update that
    the populate chain failed after its save. *)
Lemma handle_answer `{Numerics} `{GeoIndex} st r :
  statusCode (handle st r).1 ∈ [200; 201]%nat ∨
  (statusCode (handle st r).1 ∈ [403; 404; 500]%nat ∧
   ((handle st r).2 = st ∨
    statusCode (handle st r).1 = 500%nat ∧
    ∃ now id user body, r = UpdatePost now id user body)).
Proof.
  destruct r; simpl.
  - unfold getPosts, tryCatch. destruct (given query "near") as [near|]; simpl.
    + destruct (nearQuery near); simpl; [destruct (paginate _ _)|]; settle.
    + destruct (paginate _ _); settle.
  - unfold getUserPosts, tryCatch. destruct (castObjectId _); settle.
  - unfold getPost, tryCatch, findById. destruct (castObjectId _); simpl;
      [destruct (st !! _)|]; settle.
  - unfold createPost, tryCatch. destruct (Multer.single _ _); [|settle].
    destruct (newPost _ _ _ _); simpl; [|settle].
    destruct (saveNew _ _ _); settle.
  - unfold updatePost, tryCatch, findById. destruct (castObjectId id); simpl; [|settle].
    destruct (st !! _); simpl; [|settle].
    destruct (_ && _); simpl; [settle|]. destruct (bool_decide _); settle.
  - unfold addComment, tryCatch, findById. destruct (castObjectId id); simpl; [|settle].
    destruct (st !! _); simpl; [|settle].
    destruct (castObjectId _); [destruct (required _)|]; settle.
  - unfold toggleLike, tryCatch, findById. destruct (castObjectId id); simpl; [|settle].
    destruct (st !! _); simpl; [|settle].
    destruct (includes _ _); simpl; [settle|]. destruct (push _ _ _); settle.
  - unfold toggleUpvote, tryCatch, findById. destruct (castObjectId id); simpl; [|settle].
    destruct (st !! _); simpl; [|settle].
    destruct (includes _ _); simpl; [settle|]. destruct (push _ _ _); settle.
Qed.

Lemma handle_status `{Numerics} `{GeoIndex} st r :
  statusCode (handle st r).1 ∈ [200; 201; 403; 404; 500]%nat.
Proof.
  destruct (handle_answer st r) as [Hok|[Hfail _]].
  - apply list_elem_of_In in Hok. apply list_elem_of_In. simpl in *. tauto.
  - apply list_elem_of_In in Hfail. apply list_elem_of_In. simpl in *. tauto.
Qed.

(** An update is answered 403, 404 or 500, never 200; only when it is
    answered 500 can it have written. *)
Lemma updatePost_answer now st id user body :
  statusCode (updatePost now st id user body).1 ∈ [403; 404; 500]%nat ∧
  (statusCode (updatePost now st id user body).1 ≠ 500%nat →
   (updatePost now st id user body).2 = st).
Proof.
  unfold updatePost, tryCatch, findById. destruct (castObjectId id); simpl;
    [|split; [repeat constructor | done]].
  destruct (st !! _); simpl; [|split; [repeat constructor | done]].
  destruct (_ && _); simpl; [split; [repeat constructor | done]|].
  destruct (bool_decide _); simpl; (split; [repeat constructor | done]).
Qed.

(** ** POST / *)

Lemma single_accepted uploadedAt media :
  (∀ file, media = Some file → accepted file) →
  ∃ file, Multer.single uploadedAt media = Return file.
Proof.
  intros Hmedia. destruct media as [file|]; [|by eexists].
  destruct (Hmedia file eq_refl) as [Hfilter Hsize]. unfold Multer.single.
  rewrite Hfilter. simpl. rewrite (proj2 (N.ltb_ge _ _) Hsize). by eexists.
Qed.

Lemma single_refused uploadedAt file :
  refused file → ∃ err, Multer.single uploadedAt (Some file) = Throw err.
Proof.
  intros [Hfilter|Hsize]; unfold Multer.single.
  - rewrite Hfilter. by eexists.
  - destruct (Multer.fileFilter file); simpl; [|by eexists].
    rewrite (proj2 (N.ltb_lt _ _) Hsize). by eexists.
Qed.

(** The handler reads six fields of the body and no other. *)
Lemma newPost_reads `{Numerics} now user body body' file :
  (∀ k, k ∈ ["title"; "description"; "category"; "lat"; "lng"; "address"] →
        get body' k = get body k) →
  newPost now user body' file = newPost now user body file.
Proof.
  intros Hsame. unfold newPost.
  by rewrite !Hsame by (repeat constructor).
Qed.

(** C3: for every valid Create payload, sent by an authenticated caller with
    no media or with a file the upload accepts, Create answers 201 with the
    post it has stored; that post has status "reported" and the caller as
    its author, and neither depends on a [status] or an [author] that the
    request body supplies. *)
Theorem createPost_reported `{Numerics} now uploadedAt newId st user body media :
  ValidPayload body →
  (∀ file, media = Some file → accepted file) →
  castObjectId (userId user) = Some (userId user) →
  st !! newId = None →
  ∃ post,
    createPost now uploadedAt newId st user body media
      = (status_json 201 (JPost (newId, post)), <[newId := post]> st) ∧
    status post = "reported" ∧
    author post = userId user ∧
    ∀ v w, createPost now uploadedAt newId st user
             (<["status" := v]> (<["author" := w]> body)) media
           = createPost now uploadedAt newId st user body media.
Proof.
  intros [(t & Ht & Htrim) (d & Hd & Hdne) (c & Hc & Hcin) (x & y & Hx & Hy & Hxy)]
    Hmedia Huser Hfresh.
  destruct (single_accepted uploadedAt media Hmedia) as [file Hfile].
  assert (Hnew : ∃ post, newPost now user body file = Return post ∧
            status post = "reported" ∧ author post = userId user ∧
            location post = {| lng := x; lat := y;
                               address := castString (get body "address") |}).
  { unfold newPost. rewrite Ht, Hd, Hc, Hx, Hy, Huser.
    change (trim <$> Some t) with (Some (trim t)).
    rewrite !required_nonempty by auto using categoryEnum_nonempty.
    rewrite oneOf_member by done. by eexists. }
  destruct Hnew as (post & Hnew & Hstatus & Hauthor & Hloc).
  exists post. split_and!; [|done|done|].
  - unfold createPost. rewrite Hfile, Hnew. simpl. unfold saveNew.
    rewrite Hloc. simpl. rewrite Hxy. simpl.
    rewrite bool_decide_eq_false_2; [done|]. rewrite Hfresh. by intros [? ?].
  - intros v w. unfold createPost. destruct (Multer.single _ _); [|done].
    rewrite (newPost_reads now user body); [done|].
    intros k Hk. unfold get. rewrite !lookup_insert_ne; [done|..];
      intros <-; repeat (apply elem_of_cons in Hk as [Hk|Hk]; [discriminate|]);
      by apply elem_of_nil in Hk.
Qed.

Lemma createPost_reported_witness :
  ∃ post,
    createPost (H := Sample.decimal) 1000 999 Data.pothole ∅ Data.alice
      (<["status" := VString "resolved"]>
         (<["author" := VString (userId Data.bob)]> (Data.report "Pothole" "40.0" "-75.0")))
      (Some Data.photo)
      = (status_json 201 (JPost (Data.pothole, post)), <[Data.pothole := post]> ∅) ∧
    status post = "reported" ∧
    author post = userId Data.alice.
Proof.
  destruct (createPost_reported (H := Sample.decimal) 1000 999 Data.pothole ∅ Data.alice
              (<["status" := VString "resolved"]>
                 (<["author" := VString (userId Data.bob)]>
                    (Data.report "Pothole" "40.0" "-75.0")))
              (Some Data.photo))
    as (post & Hcreate & Hstatus & Hauthor & _).
  - split.
    + exists "Pothole". split; [reflexivity | discriminate].
    + exists "as seen this morning". split; [reflexivity | discriminate].
    + exists "roads". split; [reflexivity | repeat constructor].
    + exists (-75)%Q, 40%Q. split_and!; reflexivity.
  - intros file [= <-]. split; [reflexivity | by vm_compute].
  - reflexivity.
  - reflexivity.
  - exists post. split_and!; [exact Hcreate | exact Hstatus | exact Hauthor].
Defined.

Lemma newPost_invalid `{Numerics} now user body file :
  InvalidPayload body →
  match newPost now user body file with
  | Throw _ => True
  | Return post => validPoint (lng (location post)) (lat (location post)) = false
  end.
Proof.
  intros Hinvalid. unfold newPost.
  destruct (required (trim <$> _)) as [t|] eqn:Ht; [|done].
  destruct (required (castString (get body "description"))) as [d|] eqn:Hd; [|done].
  destruct (oneOf _ _) as [c|] eqn:Hc; [|done].
  destruct (parseFloatV (get body "lng")) as [x|] eqn:Hx; [|done].
  destruct (parseFloatV (get body "lat")) as [y|] eqn:Hy; [|done].
  destruct (castObjectId (userId user)) as [a|]; [|done]. simpl.
  apply required_Some in Ht as [Ht Htrim], Hd as [Hd Hdne].
  apply oneOf_Some in Hc as [Hc Hcin]. apply required_Some in Hc as [Hc _].
  destruct Hinvalid as [Hno|Hno|Hno|Hno|Hno|x' y' Hx' Hy' Hxy].
  - destruct (castString (get body "title")) as [t'|]; [|done].
    injection Ht as <-. destruct Htrim. by apply Hno.
  - destruct Hdne. by apply Hno.
  - by destruct (Hno c).
  - congruence.
  - congruence.
  - congruence.
Qed.

(** C6, as stated, fails: a Create request with a blank title, one with a
    text file attached and one with a photo over 10MB are all answered 500;
    the router has no response with status 400. *)
Example createPost_invalid_is_500 :
  statusCode (createPost (H := Sample.decimal) 2000 1999 Data.lamp Data.store1 Data.alice
                (Data.report "   " "40.0" "-75.0") None).1 = 500%nat ∧
  statusCode (createPost (H := Sample.decimal) 2000 1999 Data.lamp Data.store1 Data.alice
                (Data.report "Lamp" "40.0" "-75.0") (Some Data.notes)).1 = 500%nat ∧
  statusCode (createPost (H := Sample.decimal) 2000 1999 Data.lamp Data.store1 Data.alice
                (Data.report "Lamp" "40.0" "-75.0") (Some Data.hugePhoto)).1 = 500%nat.
Proof. by vm_compute. Qed.

(** White space outside ASCII is white space too: a title that is one
    no-break space (U+00A0) between a byte-order mark and an ideographic
    space is blank to the schema, and the request is answered 500. *)
Example createPost_blank_title :
  trim (utf8 [239; 187; 191; 194; 160; 227; 128; 128]%N) = "" ∧
  trim (utf8 [194; 160]%N +:+ "Lamp" +:+ utf8 [226; 128; 168; 10]%N) = "Lamp" ∧
  createPost (H := Sample.decimal) 2000 1999 Data.lamp Data.store1 Data.alice
    (<["title" := VString (utf8 [194; 160]%N)]> (Data.report "Lamp" "40.0" "-75.0")) None
    = (serverError (ValidationError ["title"]), Data.store1).
Proof. by vm_compute. Qed.

(** C6, amended: every validation failure of Create (a required field among
    title, description, category, lat, lng that is missing or malformed, or
    an uploaded file that is over 10MB or that the type filter refuses) is
    answered with status 500, and nothing is stored; no request to the
    router, in whatever collection, is answered 400. *)
Theorem createPost_invalid `{Numerics} `{GeoIndex} now uploadedAt newId st user body media :
  (∃ file, media = Some file ∧ refused file) ∨ InvalidPayload body →
  statusCode (createPost now uploadedAt newId st user body media).1 = 500%nat ∧
  (createPost now uploadedAt newId st user body media).2 = st ∧
  ∀ st' r, statusCode (handle st' r).1 ≠ 400%nat.
Proof.
  intros Hfails.
  assert (Hcreate : statusCode (createPost now uploadedAt newId st user body media).1 = 500%nat ∧
                    (createPost now uploadedAt newId st user body media).2 = st).
  { destruct Hfails as [(file & -> & Hrefused)|Hinvalid]; unfold createPost.
    - by destruct (single_refused uploadedAt file Hrefused) as [err ->].
    - destruct (Multer.single _ _) as [file|]; [|done].
      pose proof (newPost_invalid now user body file Hinvalid) as Hnew.
      destruct (newPost now user body file) as [post|]; [|done]. simpl.
      unfold saveNew. by rewrite Hnew. }
  destruct Hcreate as [Hcode500 Hstore]. split_and!; [done | done |].
  intros st' r Hcode. pose proof (handle_status st' r) as Hin.
  rewrite Hcode in Hin. apply list_elem_of_In in Hin. simpl in Hin.
  repeat (destruct Hin as [Hin|Hin]; [discriminate|]). done.
Qed.

Lemma createPost_invalid_witness :
  statusCode (createPost (H := Sample.decimal) 2000 1999 Data.lamp Data.store1 Data.alice
                {[ "title" := VString "Lamp" ]} (Some Data.photo)).1 = 500%nat ∧
  (createPost (H := Sample.decimal) 2000 1999 Data.lamp Data.store1 Data.alice
     {[ "title" := VString "Lamp" ]} (Some Data.photo)).2 = Data.store1.
Proof.
  destruct (createPost_invalid (H := Sample.decimal) (H0 := Sample.grid) 2000 1999 Data.lamp
              Data.store1 Data.alice {[ "title" := VString "Lamp" ]} (Some Data.photo))
    as (Hcode & Hstore & _); [|by split].
  right. apply invalid_description. intros d Hd. discriminate Hd.
Defined.

(** ** GET / *)

#[local] Instance newestFirst_trans : Transitive newestFirst.
Proof. intros p q r. unfold newestFirst. lia. Qed.

#[local] Instance newestFirst_total : Total newestFirst.
Proof. intros p q. unfold newestFirst. lia. Qed.

Lemma StronglySorted_take {A} (R : relation A) n l :
  StronglySorted R l → StronglySorted R (take n l).
Proof. rewrite <-(take_drop n l) at 1. apply StronglySorted_app_1_l. Qed.

Lemma StronglySorted_drop {A} (R : relation A) n l :
  StronglySorted R l → StronglySorted R (drop n l).
Proof. rewrite <-(take_drop n l) at 1. apply StronglySorted_app_1_r. Qed.

Section Find.

Context `{Numerics} `{GeoIndex}.
Variable st : Store.

(** What [find] hands over is stored, matches the filters and is ordered by
    [createdAt], newest first. *)
Lemma find_matches category status near :
  Forall (λ doc, st !! doc.1 = Some doc.2 ∧ matches category status near doc.2 = true)
         (find st category status near).
Proof.
  unfold find. rewrite merge_sort_Permutation. apply Forall_forall.
  intros [oid post] [Hmatch Hin]%list_elem_of_filter.
  by apply elem_of_map_to_list in Hin.
Qed.

Lemma find_sorted category status near :
  StronglySorted newestFirst (find st category status near).
Proof. apply StronglySorted_merge_sort; apply _. Qed.

(** A page is cut out of the list it pages through. *)
Lemma paginate_page query (P : Document → Prop) l page :
  paginate query l = Return page →
  Forall P l → StronglySorted newestFirst l →
  Forall P page ∧ StronglySorted newestFirst page.
Proof.
  unfold paginate. intros Hpage HP Hsorted.
  destruct (match query !! "limit" with Some _ => _ | None => _ end) as [n|]; [|done].
  destruct (match query !! "page" with Some _ => _ | None => _ end) as [pg|]; [|done].
  destruct (_ <? 0); [done|]. injection Hpage as <-. unfold limit.
  destruct (n =? 0); auto using Forall_take, Forall_drop, StronglySorted_take,
    StronglySorted_drop.
Qed.

(** Whether the paging parameters are accepted does not depend on the list. *)
Lemma paginate_accepts query l l' page :
  paginate query l = Return page → ∃ page', paginate query l' = Return page'.
Proof.
  unfold paginate.
  destruct (match query !! "limit" with Some _ => _ | None => _ end) as [n|]; [|done].
  destruct (match query !! "page" with Some _ => _ | None => _ end) as [pg|]; [|done].
  destruct (_ <? 0); [done|]. by eexists.
Qed.

Lemma find_elem category status near oid post :
  (oid, post) ∈ find st category status near ↔
  st !! oid = Some post ∧ matches category status near post = true.
Proof.
  unfold find. rewrite merge_sort_Permutation, list_elem_of_filter, elem_of_map_to_list.
  simpl. tauto.
Qed.

Lemma find_NoDup category status near : NoDup (find st category status near).
Proof. unfold find. rewrite merge_sort_Permutation. apply NoDup_filter, NoDup_map_to_list. Qed.

Lemma matches_filters category status near post :
  matches category status near post = true ↔
  (∀ c, category = Some c → Mongoose.category post = c) ∧
  (∀ s, status = Some s → Mongoose.status post = s) ∧
  (∀ n, near = Some n → within n post = true).
Proof.
  unfold matches. rewrite !andb_true_iff.
  destruct category as [c|], status as [s|], near as [n|];
    rewrite ?bool_decide_eq_true; split.
  all: try (intros [[? ?] ?]; split_and!; intros ? [= <-] || intros ? [=]; done).
  all: intros (Hc & Hs & Hn); split_and!; auto.
Qed.

(** A [near] filter is accepted exactly when it asks for a point within
    the bounds of the index and a radius that is not negative; the query
    is then made for that point and that radius. *)
Lemma nearQuery_Asks near lng0 lat0 radius :
  nearQuery near = Return (lng0, lat0, radius) ↔
  Asks near lng0 lat0 radius ∧ validPoint lng0 lat0 = true ∧ Qle_bool 0 radius = true.
Proof.
  unfold nearQuery. rewrite !list_lookup_fmap. split.
  - intros Hquery.
    destruct (split "," near !! 0%nat) as [s0|] eqn:Hs0; simpl in Hquery; [|done].
    destruct (Number s0) as [la|] eqn:Hla; simpl in Hquery; [|done].
    destruct (split "," near !! 1%nat) as [s1|] eqn:Hs1; simpl in Hquery; [|done].
    destruct (Number s1) as [lo|] eqn:Hlo; simpl in Hquery; [|done].
    destruct (split "," near !! 2%nat) as [s2|] eqn:Hs2; simpl in Hquery.
    + destruct (Number s2) as [r|] eqn:Hr; [|done].
      destruct (validPoint lo la && Qle_bool 0 r) eqn:Hok; [|done].
      injection Hquery as <- <- <-. apply andb_prop in Hok as [Hpoint Hradius].
      split_and!; [split|done|done]; [by exists s0 | by exists s1 | by rewrite Hs2].
    + destruct (validPoint lo la && Qle_bool 0 5000) eqn:Hok; [|done].
      injection Hquery as <- <- <-. apply andb_prop in Hok as [Hpoint Hradius].
      split_and!; [split|done|done]; [by exists s0 | by exists s1 | by rewrite Hs2].
  - intros ([(s0 & Hs0 & Hla) (s1 & Hs1 & Hlo) Hr] & Hpoint & Hradius).
    rewrite Hs0, Hs1. simpl. rewrite Hla, Hlo. simpl.
    destruct (split "," near !! 2%nat) as [s2|]; simpl.
    + by rewrite Hr, Hpoint, Hradius.
    + subst radius. by rewrite Hpoint, Hradius.
Qed.

Lemma page_lookup {A} (l : list A) (n k i : nat) :
  take n (drop k l) !! i = if decide (i < n)%nat then l !! (k + i)%nat else None.
Proof.
  case_decide.
  - by rewrite lookup_take_lt, lookup_drop.
  - apply lookup_take_ge. lia.
Qed.

(** With a [near] filter that is accepted, if there is one, a limit
    [n > 0] and a page [p >= 1], the answer is the list of the matching
    posts, newest first, without its first [(p - 1) * n] entries and cut
    after [n]. *)
Lemma getPosts_paged query near n p :
  match given query "near" with
  | Some s => Some <$> nearQuery s
  | None => Return None
  end = Return near →
  match query !! "limit" with None => Some 20 | Some s => parseInt s end = Some n →
  match query !! "page" with None => Some 1 | Some s => parseInt s end = Some p →
  0 < n → 1 ≤ p →
  getPosts st query =
    (json (JPosts (take (Z.to_nat n)
                     (drop (Z.to_nat ((p - 1) * n))
                        (find st (given query "category") (given query "status") near)))),
     st).
Proof.
  intros Hnear Hlimit Hpage Hn Hp. unfold getPosts, paginate. rewrite Hnear. simpl.
  rewrite Hlimit, Hpage.
  assert (((p - 1) * n <? 0) = false) as -> by (apply Z.ltb_ge; nia). simpl.
  unfold limit. assert ((n =? 0) = false) as -> by (apply Z.eqb_neq; lia).
  by rewrite Z.abs_eq by lia.
Qed.

End Find.

Lemma store3_posts :
  Data.store3 !! Data.pothole = Some Data.potholePost ∧
  Data.store3 !! Data.lamp = Some Data.lampPost.
Proof. by vm_compute. Qed.

(** C4, as stated, fails on the order.  Both posts of [Data.store3] lie
    within the default 5000 metres of (lat 40.0, lng -75.0): the pothole at
    the very point, the lamp some 111 metres away.  The list comes back with
    the lamp first, because it is the newer post: the handler sorts every
    list by [createdAt], and that explicit sort replaces the order of
    [$near]. *)
Example near_is_not_nearest_first :
  getPosts (H := Sample.decimal) (H0 := Sample.grid) Data.store3 {[ "near" := "40.0,-75.0" ]}
    = (json (JPosts [(Data.lamp, Data.lampPost); (Data.pothole, Data.potholePost)]),
       Data.store3) ∧
  Sample.grid (-75, 40)%Q (-75, 40)%Q = 0%Q ∧
  Qred (Sample.grid (-75, 40)%Q (-75, 40001 # 1000)%Q) = (22239 # 200)%Q ∧
  nearestFirst (H := Sample.grid) (-75, 40)%Q
    [(Data.lamp, Data.lampPost); (Data.pothole, Data.potholePost)] = false.
Proof. by vm_compute. Qed.

(** The order of that list does not hang on the sample distance: under
    every index that finds both posts within 5000 metres of the query point,
    the lamp, being newer, comes before the pothole, which lies at the query
    point itself. *)
Lemma near_order_any_index (geo : GeoIndex) :
  Qle_bool (geo (-75, 40)%Q (-75, 40)%Q) 5000 = true →
  Qle_bool (geo (-75, 40)%Q (-75, 40001 # 1000)%Q) 5000 = true →
  (getPosts (H := Sample.decimal) (H0 := geo) Data.store3 {[ "near" := "40.0,-75.0" ]}).1
    = json (JPosts [(Data.lamp, Data.lampPost); (Data.pothole, Data.potholePost)]).
Proof.
  intros Hpothole Hlamp.
  assert (Hlist : map_to_list Data.store3
                  = [(Data.pothole, Data.potholePost); (Data.lamp, Data.lampPost)])
    by (by vm_compute).
  unfold getPosts.
  assert (given {[ "near" := "40.0,-75.0" ]} "near" = Some "40.0,-75.0") as ->
    by (by vm_compute).
  assert (given {[ "near" := "40.0,-75.0" ]} "category" = None) as -> by (by vm_compute).
  assert (given {[ "near" := "40.0,-75.0" ]} "status" = None) as -> by (by vm_compute).
  assert (nearQuery (H := Sample.decimal) "40.0,-75.0" = Return (-75, 40, 5000)%Q) as ->
    by (by vm_compute).
  unfold find. rewrite Hlist.
  unfold fmap, Outcome_fmap, mbind, Outcome_bind at 1. cbv beta iota.
  assert (Hm1 : matches (H := geo) None None (Some (-75, 40, 5000)%Q) Data.potholePost = true)
    by exact Hpothole.
  assert (Hm2 : matches (H := geo) None None (Some (-75, 40, 5000)%Q) Data.lampPost = true)
    by exact Hlamp.
  rewrite !filter_cons, filter_nil. simpl fst; simpl snd.
  rewrite !decide_True by assumption.
  by vm_compute.
Qed.

(** The scenario of the specification: a post at (lat 40.0, lng -75.0) is
    listed for [near=40.0,-75.0,1000] and not for [near=41.0,-75.0,1000]. *)
Example near_scenario :
  (getPosts (H := Sample.decimal) (H0 := Sample.grid) Data.store1
     {[ "near" := "40.0,-75.0,1000" ]}).1
    = json (JPosts [(Data.pothole, Data.potholePost)]) ∧
  (getPosts (H := Sample.decimal) (H0 := Sample.grid) Data.store1
     {[ "near" := "41.0,-75.0,1000" ]}).1
    = json (JPosts []).
Proof. by vm_compute. Qed.

(** C4, amended: List with a [near] filter "lat,lng" or "lat,lng,radius"
    returns only stored posts within [radius] metres (5000 when the filter
    names no radius) of the point the filter names, ordered newest-first
    (by [createdAt], like every other list, and not by distance).  When the
    point lies within the bounds of the index and the radius is not
    negative, with a limit [n > 0] and a page [p >= 1], the answer is cut by
    skip and limit from the list of all such posts that also pass the
    category and status filters: entry [i < n] of the answer is entry
    [(p - 1) * n + i] of that list, and the answer ends there. *)
Theorem getPosts_near `{Numerics} `{GeoIndex} st query near :
  given query "near" = Some near →
  (∀ posts, (getPosts st query).1 = json (JPosts posts) →
     ∃ lng0 lat0 radius,
       Asks near lng0 lat0 radius ∧
       Forall (λ doc, st !! doc.1 = Some doc.2 ∧
                      (distance (lng0, lat0) (lng (location doc.2), lat (location doc.2))
                       <= radius)%Q) posts ∧
       StronglySorted newestFirst posts) ∧
  (∀ lng0 lat0 radius n p,
     Asks near lng0 lat0 radius → validPoint lng0 lat0 = true → (0 <= radius)%Q →
     match query !! "limit" with None => Some 20 | Some s => parseInt s end = Some n →
     match query !! "page" with None => Some 1 | Some s => parseInt s end = Some p →
     0 < n → 1 ≤ p →
     ∃ all posts,
       getPosts st query = (json (JPosts posts), st) ∧
       (∀ oid post, (oid, post) ∈ all ↔
          st !! oid = Some post ∧
          (distance (lng0, lat0) (lng (location post), lat (location post)) <= radius)%Q ∧
          (∀ c, given query "category" = Some c → category post = c) ∧
          (∀ s, given query "status" = Some s → status post = s)) ∧
       NoDup all ∧
       StronglySorted newestFirst all ∧
       ∀ i : nat,
         posts !! i =
           if decide (i < Z.to_nat n)%nat
           then all !! (Z.to_nat ((p - 1) * n) + i)%nat
           else None).
Proof.
  intros Hnear. split.
  - unfold getPosts. rewrite Hnear. intros posts.
    destruct (nearQuery near) as [[[lng0 lat0] radius]|] eqn:Hquery; [|done]. simpl.
    destruct (paginate query _) as [page|] eqn:Hpage; [|done]. simpl.
    intros [= <-]. exists lng0, lat0, radius.
    apply nearQuery_Asks in Hquery as (Hasks & _ & _). split; [done|].
    eapply paginate_page; [exact Hpage| |apply find_sorted].
    eapply Forall_impl; [apply find_matches|]. simpl.
    intros doc [Hdoc Hmatch]. split; [done|].
    apply matches_filters in Hmatch as (_ & _ & Hwithin).
    by apply Qle_bool_iff, (Hwithin _ eq_refl).
  - intros lng0 lat0 radius n p Hasks Hpoint Hradius Hlimit Hpage Hn Hp.
    assert (Hquery : nearQuery near = Return (lng0, lat0, radius)).
    { apply nearQuery_Asks. split_and!; [done | done | by apply Qle_bool_iff]. }
    exists (find st (given query "category") (given query "status")
              (Some (lng0, lat0, radius))).
    eexists. split_and!.
    + apply (getPosts_paged st query (Some (lng0, lat0, radius)) n p); [|done..].
      by rewrite Hnear, Hquery.
    + intros oid post. rewrite find_elem, matches_filters. split.
      * intros (Hpost & Hc & Hs & Hwithin). split_and!; [done| |done|done].
        by apply Qle_bool_iff, (Hwithin _ eq_refl).
      * intros (Hpost & Hwithin & Hc & Hs). split_and!; [done..|].
        intros near' [= <-]. by apply Qle_bool_iff.
    + apply find_NoDup.
    + apply find_sorted.
    + intros i. apply page_lookup.
Qed.

Lemma getPosts_near_witness :
  (∃ lng0 lat0 radius,
     Asks (H := Sample.decimal) "40.0,-75.0,100" lng0 lat0 radius ∧
     Forall (λ doc, Data.store3 !! doc.1 = Some doc.2 ∧
                    (Sample.grid (lng0, lat0) (lng (location doc.2), lat (location doc.2))
                     <= radius)%Q)
       [(Data.pothole, Data.potholePost)] ∧
     StronglySorted newestFirst [(Data.pothole, Data.potholePost)]) ∧
  (∃ all posts,
     getPosts (H := Sample.decimal) (H0 := Sample.grid) Data.store3
       {[ "near" := "40.0,-75.0,100" ]} = (json (JPosts posts), Data.store3) ∧
     (∀ oid post, (oid, post) ∈ all ↔
        Data.store3 !! oid = Some post ∧
        (Sample.grid (-75, 40)%Q (lng (location post), lat (location post)) <= 100)%Q ∧
        (∀ c, given {[ "near" := "40.0,-75.0,100" ]} "category" = Some c →
              category post = c) ∧
        (∀ s, given {[ "near" := "40.0,-75.0,100" ]} "status" = Some s → status post = s)) ∧
     NoDup all ∧
     StronglySorted newestFirst all ∧
     ∀ i : nat,
       posts !! i =
         if decide (i < Z.to_nat 20)%nat then all !! (Z.to_nat ((1 - 1) * 20) + i)%nat
         else None).
Proof.
  assert (Hnear : given {[ "near" := "40.0,-75.0,100" ]} "near" = Some "40.0,-75.0,100")
    by (by vm_compute).
  destruct (getPosts_near (H := Sample.decimal) (H0 := Sample.grid) Data.store3
              {[ "near" := "40.0,-75.0,100" ]} "40.0,-75.0,100" Hnear) as [Hsound Hpaged].
  split.
  - apply Hsound. by vm_compute.
  - apply (Hpaged (-75)%Q 40%Q 100%Q 20 1); [|by vm_compute..].
    split; [by exists "40.0" | by exists "-75.0" | by vm_compute].
Defined.

(** With a radius of 100 metres the lamp, some 111 metres from the query
    point, is left out; with the default radius it is listed. *)
Example near_radius :
  (getPosts (H := Sample.decimal) (H0 := Sample.grid) Data.store3
     {[ "near" := "40.0,-75.0,100" ]}).1
    = json (JPosts [(Data.pothole, Data.potholePost)]) ∧
  (getPosts (H := Sample.decimal) (H0 := Sample.grid) Data.store3
     {[ "near" := "40.0,-75.0" ]}).1
    = json (JPosts [(Data.lamp, Data.lampPost); (Data.pothole, Data.potholePost)]).
Proof. by vm_compute. Qed.

(** * Further properties of the handlers *)

(** ** POST /:id/comments *)

(** X1: a comment by an authenticated caller, with a text that is not empty,
    on a stored post is answered 200 with the comments of the post followed
    by the new one (the caller, the text as sent, the time of the request);
    exactly that list is stored, the post is stamped, and nothing else in it
    or in the collection changes. *)
Theorem addComment_appends now st id oid user body post t :
  castObjectId id = Some oid → st !! oid = Some post →
  castObjectId (userId user) = Some (userId user) →
  castString (get body "text") = Some t → t ≠ "" →
  addComment now st id user body =
    (json (JComments (comments post ++
             [{| Mongoose.user := userId user; text := t; commentedAt := now |}])),
     <[oid := set_updatedAt now
                (set_comments
                   (comments post ++
                      [{| Mongoose.user := userId user; text := t; commentedAt := now |}])
                   post)]> st).
Proof.
  intros Hid Hpost Huser Htext Ht. unfold addComment.
  rewrite (findById_present st id oid post Hid Hpost). simpl.
  rewrite Huser, Htext, (required_nonempty t Ht). simpl.
  unfold save, stamp. rewrite decide_False; [done|].
  intros Heq. apply (f_equal (λ p, length (comments p))) in Heq. simpl in Heq.
  rewrite length_app in Heq. simpl in Heq. lia.
Qed.

Lemma addComment_appends_witness :
  addComment 2000 Data.store1 Data.pothole Data.bob {[ "text" := VString "Still there." ]} =
    (json (JComments [{| Mongoose.user := userId Data.bob; text := "Still there.";
                         commentedAt := 2000 |}]),
     <[Data.pothole :=
         set_updatedAt 2000
           (set_comments [{| Mongoose.user := userId Data.bob; text := "Still there.";
                             commentedAt := 2000 |}] Data.potholePost)]> Data.store1).
Proof.
  apply (addComment_appends 2000 Data.store1 Data.pothole Data.pothole Data.bob
           {[ "text" := VString "Still there." ]} Data.potholePost "Still there.");
    [reflexivity | apply store1_pothole | reflexivity | by vm_compute | discriminate].
Defined.

(** X2: a comment on a well-formed id that no post has is answered 404; a
    comment whose text is missing, [null] or empty is answered 500 (the
    [required] validator of [comments.text]); either way nothing is
    stored. *)
Theorem addComment_rejects now st id oid user body :
  castObjectId id = Some oid →
  (st !! oid = None → addComment now st id user body = (notFound, st)) ∧
  (is_Some (st !! oid) →
   (∀ t, castString (get body "text") = Some t → t = "") →
   statusCode (addComment now st id user body).1 = 500%nat ∧
   (addComment now st id user body).2 = st).
Proof.
  intros Hid. split.
  - intros Hst. unfold addComment. by rewrite (findById_absent st id oid).
  - intros [post Hpost] Htext. unfold addComment.
    rewrite (findById_present st id oid post Hid Hpost). simpl.
    assert (required (castString (get body "text")) = None) as ->.
    { destruct (castString (get body "text")) as [t|] eqn:Ht; [|done].
      rewrite (Htext t eq_refl). done. }
    by destruct (castObjectId (userId user)).
Qed.

Lemma addComment_rejects_witness :
  addComment 2000 Data.store1 Data.lamp Data.bob {[ "text" := VString "Hello" ]}
    = (notFound, Data.store1) ∧
  statusCode (addComment 2000 Data.store1 Data.pothole Data.bob {[ "text" := VString "" ]}).1
    = 500%nat ∧
  (addComment 2000 Data.store1 Data.pothole Data.bob {[ "text" := VString "" ]}).2
    = Data.store1.
Proof.
  split.
  - apply (addComment_rejects 2000 Data.store1 Data.lamp Data.lamp Data.bob
             {[ "text" := VString "Hello" ]} eq_refl), store1_lamp.
  - apply (addComment_rejects 2000 Data.store1 Data.pothole Data.pothole Data.bob
             {[ "text" := VString "" ]} eq_refl).
    + exists Data.potholePost. apply store1_pothole.
    + intros t Ht. vm_compute in Ht. by injection Ht as <-.
Defined.

(** ** PUT /:id, when the caller may update *)

Lemma may_update post user :
  author post = userId user ∨ role user = "municipal" →
  bool_decide (author post ≠ userId user) && bool_decide (role user ≠ "municipal") = false.
Proof.
  intros [Hmay|Hmay]; rewrite (bool_decide_eq_false_2 _ (λ H, H Hmay));
    [done | apply andb_false_r].
Qed.

(** X3: when the author of a post or a caller of role "municipal" sends a
    new status, the update is stored (and the post stamped) exactly when
    the value is one of the schema's enum, whatever the status was before
    (no order of the states is enforced); the request is answered 500
    either way: with the error of the populate chain once the update is
    stored, with the validation error, and nothing stored, for any other
    value. *)
Theorem updatePost_status now st id oid user body post s :
  castObjectId id = Some oid → st !! oid = Some post →
  author post = userId user ∨ role user = "municipal" →
  get body "status" = VString s → s ≠ "" → s ≠ status post →
  truthy (get body "assignedTo") = false →
  updatePost now st id user body =
    if bool_decide (s ∈ statusEnum)
    then (serverError populateChain,
          <[oid := set_updatedAt now (set_status s post)]> st)
    else (serverError (ValidationError ["status"]), st).
Proof.
  intros Hid Hpost Hmay Hstatus Hs Hnew Hassigned. unfold updatePost.
  rewrite (findById_present st id oid post Hid Hpost). simpl.
  rewrite (may_update post user Hmay), Hassigned, Hstatus. simpl.
  rewrite (bool_decide_eq_true_2 (s ≠ "") Hs), (bool_decide_eq_true_2 _ Hnew). simpl.
  destruct (decide (s ∈ statusEnum)) as [Hin|Hout].
  - rewrite (bool_decide_eq_true_2 _ Hin).
    rewrite (bool_decide_eq_false_2 (s ∉ statusEnum) (λ Hout, Hout Hin)). simpl.
    unfold save, stamp. rewrite decide_False; [done|].
    intros Heq. apply (f_equal status) in Heq. simpl in Heq. done.
  - by rewrite (bool_decide_eq_false_2 _ Hout), (bool_decide_eq_true_2 (s ∉ statusEnum) Hout).
Qed.

Lemma updatePost_status_witness :
  updatePost 2000 Data.store1 Data.pothole Data.clerk {[ "status" := VString "resolved" ]} =
    (serverError populateChain,
     <[Data.pothole := set_updatedAt 2000 (set_status "resolved" Data.potholePost)]>
       Data.store1) ∧
  updatePost 2000 Data.store1 Data.pothole Data.alice {[ "status" := VString "done" ]} =
    (serverError (ValidationError ["status"]), Data.store1).
Proof.
  split.
  - apply (updatePost_status 2000 Data.store1 Data.pothole Data.pothole Data.clerk
             {[ "status" := VString "resolved" ]} Data.potholePost "resolved");
      [reflexivity | apply store1_pothole | by right | by vm_compute | discriminate
      | discriminate | by vm_compute].
  - apply (updatePost_status 2000 Data.store1 Data.pothole Data.pothole Data.alice
             {[ "status" := VString "done" ]} Data.potholePost "done");
      [reflexivity | apply store1_pothole | by left | by vm_compute | discriminate
      | discriminate | by vm_compute].
Defined.

(** X4: an authorised update that names an assignee stores whatever
    well-formed ObjectId it is given, in canonical form, without looking
    the user up, and is then answered 500 with the error of the populate
    chain; a value that is no ObjectId is answered 500 with the validation
    error and changes nothing. *)
Theorem updatePost_assigns now st id oid user body post a :
  castObjectId id = Some oid → st !! oid = Some post →
  author post = userId user ∨ role user = "municipal" →
  truthy (get body "status") = false →
  get body "assignedTo" = VString a → a ≠ "" →
  updatePost now st id user body =
    match castObjectId a with
    | Some assignee =>
        (serverError populateChain,
         <[oid := stamp now post (set_assignedTo (Some assignee) post)]> st)
    | None => (serverError (ValidationError ["assignedTo"]), st)
    end.
Proof.
  intros Hid Hpost Hmay Hstatus Hassigned Ha. unfold updatePost.
  rewrite (findById_present st id oid post Hid Hpost). simpl.
  rewrite (may_update post user Hmay), Hassigned, Hstatus. simpl.
  rewrite (bool_decide_eq_true_2 (a ≠ "") Ha). simpl.
  by destruct (castObjectId a).
Qed.

Lemma updatePost_assigns_witness :
  updatePost 2000 Data.store1 Data.pothole Data.clerk
    {[ "assignedTo" := VString "64B7F0C2A1D3E4F5A6B7C8D3" ]} =
    (serverError populateChain,
     <[Data.pothole := set_updatedAt 2000
                         (set_assignedTo (Some (userId Data.clerk)) Data.potholePost)]>
       Data.store1) ∧
  updatePost 2000 Data.store1 Data.pothole Data.clerk {[ "assignedTo" := VString "me" ]} =
    (serverError (ValidationError ["assignedTo"]), Data.store1).
Proof.
  split.
  - apply (updatePost_assigns 2000 Data.store1 Data.pothole Data.pothole Data.clerk
             {[ "assignedTo" := VString "64B7F0C2A1D3E4F5A6B7C8D3" ]} Data.potholePost
             "64B7F0C2A1D3E4F5A6B7C8D3");
      [reflexivity | apply store1_pothole | by right | by vm_compute | by vm_compute
      | discriminate].
  - apply (updatePost_assigns 2000 Data.store1 Data.pothole Data.pothole Data.clerk
             {[ "assignedTo" := VString "me" ]} Data.potholePost "me");
      [reflexivity | apply store1_pothole | by right | by vm_compute | by vm_compute
      | discriminate].
Defined.

(** ** What a request can do to the collection *)

Lemma Evolves_refl post : Evolves post post.
Proof. by split. Qed.

Lemma Evolves_stamp now old new : Evolves old new → Evolves old (stamp now old new).
Proof. unfold stamp. case_decide; [done|]. by intros []. Qed.

Lemma Untouched_Evolves post post' : Untouched post post' → Evolves post post'.
Proof. intros []. split; try done. by rewrite same_comments0. Qed.

Section Steps.

Context `{Numerics} `{GeoIndex}.
Variable st : Store.

Lemma createPost_Step now uploadedAt newId user body media :
  Step st (createPost now uploadedAt newId st user body media).2.
Proof.
  unfold createPost. destruct (Multer.single _ _) as [file|]; [|constructor].
  destruct (newPost now user body file) as [post|] eqn:Hnew; [|constructor]. simpl.
  unfold saveNew. destruct (validPoint _ _); [|constructor]. simpl.
  case_bool_decide as Hfresh; [constructor|]. simpl.
  eapply step_new; [|exact Hnew].
  destruct (st !! newId) eqn:Hst; [|done]. destruct Hfresh. by eexists.
Qed.

Lemma updatePost_Step now id user body : Step st (updatePost now st id user body).2.
Proof.
  destruct (castObjectId id) as [oid|] eqn:Hid;
    [|unfold updatePost; rewrite findById_malformed by done; constructor].
  destruct (st !! oid) as [post|] eqn:Hpost;
    [|unfold updatePost; rewrite (findById_absent st id oid) by done; constructor].
  destruct (updatePost_effect now st id user body oid post Hid Hpost)
    as (post' & Hpost' & Hothers & Hframe & _).
  assert ((updatePost now st id user body).2 = <[oid := post']> st) as ->.
  { apply map_eq. intros k. destruct (decide (k = oid)) as [->|Hne].
    - by rewrite lookup_insert_eq.
    - by rewrite lookup_insert_ne, Hothers. }
  eapply step_edit; eauto using Untouched_Evolves.
Qed.

Lemma addComment_Step now id user body : Step st (addComment now st id user body).2.
Proof.
  unfold addComment.
  destruct (castObjectId id) as [oid|] eqn:Hid;
    [|rewrite findById_malformed by done; constructor].
  destruct (st !! oid) as [post|] eqn:Hpost;
    [|rewrite (findById_absent st id oid) by done; constructor].
  rewrite (findById_present st id oid post Hid Hpost). simpl.
  destruct (castObjectId (userId user)); [|constructor].
  destruct (required _); [|constructor]. simpl.
  eapply step_edit; [exact Hpost|]. apply Evolves_stamp. split; try done.
  simpl. by apply prefix_app_r.
Qed.

Lemma toggleLike_Step now id user : Step st (toggleLike now st id user).2.
Proof.
  unfold toggleLike.
  destruct (castObjectId id) as [oid|] eqn:Hid;
    [|rewrite findById_malformed by done; constructor].
  destruct (st !! oid) as [post|] eqn:Hpost;
    [|rewrite (findById_absent st id oid) by done; constructor].
  rewrite (findById_present st id oid post Hid Hpost). simpl.
  destruct (includes _ _); simpl.
  - eapply step_edit; [exact Hpost|]. apply Evolves_stamp. by split.
  - unfold push. destruct (castObjectId (userId user)); [|constructor]. simpl.
    eapply step_edit; [exact Hpost|]. apply Evolves_stamp. by split.
Qed.

Lemma toggleUpvote_Step now id user : Step st (toggleUpvote now st id user).2.
Proof.
  unfold toggleUpvote.
  destruct (castObjectId id) as [oid|] eqn:Hid;
    [|rewrite findById_malformed by done; constructor].
  destruct (st !! oid) as [post|] eqn:Hpost;
    [|rewrite (findById_absent st id oid) by done; constructor].
  rewrite (findById_present st id oid post Hid Hpost). simpl.
  destruct (includes _ _); simpl.
  - eapply step_edit; [exact Hpost|]. apply Evolves_stamp. by split.
  - unfold push. destruct (castObjectId (userId user)); [|constructor]. simpl.
    eapply step_edit; [exact Hpost|]. apply Evolves_stamp. by split.
Qed.

(** Whoever sends it and whatever it carries, a request changes the
    collection in one of the three ways of [Step]. *)
Lemma handle_Step r : Step st (handle st r).2.
Proof.
  destruct r; simpl.
  - rewrite getPosts_store. constructor.
  - rewrite getUserPosts_store. constructor.
  - rewrite getPost_store. constructor.
  - apply createPost_Step.
  - apply updatePost_Step.
  - apply addComment_Step.
  - apply toggleLike_Step.
  - apply toggleUpvote_Step.
Qed.

End Steps.

(** X5: no request, whoever sends it and whatever it carries, deletes a post
    or changes its author, title, description, category, location, media
    URLs, share counter or creation time; the comments it has are kept, in
    their order, at the front of the comments it has afterwards. *)
Theorem posts_persist `{Numerics} `{GeoIndex} st r oid post :
  st !! oid = Some post →
  ∃ post', (handle st r).2 !! oid = Some post' ∧ Evolves post post'.
Proof.
  intros Hpost.
  destruct (handle_Step st r) as [|oid0 post0 post0' Hpost0 Hevolves
                                   |newId now user body file post0 Hfresh _].
  - exists post. auto using Evolves_refl.
  - destruct (decide (oid0 = oid)) as [->|Hne].
    + rewrite Hpost0 in Hpost. injection Hpost as <-.
      exists post0'. by rewrite lookup_insert_eq.
    + exists post. rewrite lookup_insert_ne by done. auto using Evolves_refl.
  - exists post. rewrite lookup_insert_ne by congruence. auto using Evolves_refl.
Qed.

Lemma posts_persist_witness :
  ∃ post',
    (handle (H := Sample.decimal) (H0 := Sample.grid) Data.store1
       (AddComment 2000 Data.pothole Data.bob {[ "text" := VString "Still there." ]})).2
      !! Data.pothole = Some post' ∧
    Evolves Data.potholePost post'.
Proof.
  apply (posts_persist (H := Sample.decimal) (H0 := Sample.grid) Data.store1
           (AddComment 2000 Data.pothole Data.bob {[ "text" := VString "Still there." ]})
           Data.pothole Data.potholePost store1_pothole).
Defined.

Lemma image_not_video s : startsWith "image" s = true → startsWith "video" s = false.
Proof.
  destruct s as [|c s]; [done|]. simpl.
  case_bool_decide as Hi; [|done]. subst c. done.
Qed.

Lemma newPost_media `{Numerics} now user body file post :
  newPost now user body file = Return post →
  shares post = 0 ∧ (imageUrl post = None ∨ videoUrl post = None).
Proof.
  unfold newPost. cbv beta zeta. intros Hnew.
  destruct (required (trim <$> _)); [|done].
  destruct (required (castString (get body "description"))); [|done].
  destruct (oneOf _ _); [|done].
  destruct (parseFloatV (get body "lng")); [|done].
  destruct (parseFloatV (get body "lat")); [|done].
  destruct (castObjectId (userId user)); [|done].
  destruct file as [f|]; [|injection Hnew as <-; by split; [|left]].
  destruct (startsWith "image" (Multer.fileMimetype f)) eqn:Himage.
  - rewrite (image_not_video _ Himage) in Hnew. injection Hnew as <-. by split; [|right].
  - injection Hnew as <-. by split; [|left].
Qed.

(** X6: in every collection the service can reach, by whatever requests, a
    post has at most one of [imageUrl] and [videoUrl], and its share counter
    is still 0: no handler writes [shares]. *)
Theorem media_and_shares `{Numerics} `{GeoIndex} st oid post :
  reachable st → st !! oid = Some post →
  shares post = 0 ∧ (imageUrl post = None ∨ videoUrl post = None).
Proof.
  intros Hst. revert oid post.
  induction Hst as [|st r _ IH _]; intros oid post; [by rewrite lookup_empty|].
  destruct (handle_Step st r) as [|oid0 post0 post0' Hpost0 []
                                   |newId now user body file post0 _ Hnew].
  - apply IH.
  - destruct (decide (oid0 = oid)) as [->|Hne].
    + rewrite lookup_insert_eq. intros [= <-].
      destruct (IH oid post0 Hpost0) as [Hshares Hmedia]. split; congruence.
    + rewrite lookup_insert_ne by done. apply IH.
  - destruct (decide (newId = oid)) as [->|Hne].
    + rewrite lookup_insert_eq. intros [= <-]. by eapply newPost_media.
    + rewrite lookup_insert_ne by done. apply IH.
Qed.

Lemma media_and_shares_witness :
  shares Data.potholePost = 0 ∧
  (imageUrl Data.potholePost = None ∨ videoUrl Data.potholePost = None).
Proof.
  apply (media_and_shares (H := Sample.decimal) (H0 := Sample.grid) Data.store1
           Data.pothole Data.potholePost store1_reachable store1_pothole).
Defined.

(** ** Answers and writes *)

(** X7: every request that reaches a handler is answered 200, 201, 403, 404
    or 500.  A request that is not answered 200 or 201 has stored nothing,
    the collection is exactly as it was, with one exception: an update
    (PUT /:id) answered 500.  An update is never answered 200 or 201, and
    an update answered 403 or 404 has stored nothing. *)
Theorem answers_and_writes `{Numerics} `{GeoIndex} st r :
  statusCode (handle st r).1 ∈ [200; 201; 403; 404; 500]%nat ∧
  (statusCode (handle st r).1 ∉ [200; 201]%nat →
   (handle st r).2 = st ∨
   statusCode (handle st r).1 = 500%nat ∧
   ∃ now id user body, r = UpdatePost now id user body) ∧
  (∀ now id user body,
     statusCode (updatePost now st id user body).1 ∈ [403; 404; 500]%nat ∧
     (statusCode (updatePost now st id user body).1 ≠ 500%nat →
      (updatePost now st id user body).2 = st)).
Proof.
  split_and!.
  - apply handle_status.
  - intros Hfail. by destruct (handle_answer st r) as [Hok|[_ Hst]].
  - intros now id user body. apply updatePost_answer.
Qed.

(** The clerk's update of the pothole is stored, and answered 500. *)
Example update_stored_and_500 :
  statusCode (updatePost 2000 Data.store1 Data.pothole Data.clerk
                {[ "status" := VString "resolved" ]}).1 = 500%nat ∧
  status <$> (updatePost 2000 Data.store1 Data.pothole Data.clerk
                {[ "status" := VString "resolved" ]}).2 !! Data.pothole = Some "resolved".
Proof. by vm_compute. Qed.

(** ** Likes and upvotes together *)

Lemma toggled_ne u l : toggled u l ≠ l.
Proof.
  intros Heq. pose proof (toggled_self u l) as Hself. rewrite Heq in Hself. tauto.
Qed.

Lemma stamp_likes now post l :
  l ≠ likes post → stamp now post (set_likes l post) = set_updatedAt now (set_likes l post).
Proof.
  intros Hne. unfold stamp. rewrite decide_False; [done|].
  intros Heq. by apply (f_equal likes) in Heq.
Qed.

Lemma stamp_upvotes now post l :
  l ≠ upvotes post →
  stamp now post (set_upvotes l post) = set_updatedAt now (set_upvotes l post).
Proof.
  intros Hne. unfold stamp. rewrite decide_False; [done|].
  intros Heq. by apply (f_equal upvotes) in Heq.
Qed.

Lemma toggleLike_store now st id oid user post :
  castObjectId id = Some oid → st !! oid = Some post →
  castObjectId (userId user) = Some (userId user) →
  (toggleLike now st id user).2 =
    <[oid := set_updatedAt now (set_likes (toggled (userId user) (likes post)) post)]> st.
Proof.
  intros Hid Hpost Huser. rewrite (toggleLike_toggled now st id user oid post) by done.
  cbn [snd]. unfold save. by rewrite stamp_likes by apply toggled_ne.
Qed.

Lemma toggleUpvote_store now st id oid user post :
  castObjectId id = Some oid → st !! oid = Some post →
  castObjectId (userId user) = Some (userId user) →
  (toggleUpvote now st id user).2 =
    <[oid := set_updatedAt now (set_upvotes (toggled (userId user) (upvotes post)) post)]> st.
Proof.
  intros Hid Hpost Huser. rewrite (toggleUpvote_toggled now st id user oid post) by done.
  cbn [snd]. unfold save. by rewrite stamp_upvotes by apply toggled_ne.
Qed.

(** X8: a like and an upvote on the same post do not interfere.  Whether
    [liker] likes at time [t1] and [voter] upvotes at [t2] or the upvote
    comes first, the collection ends up the same: the likes toggled for
    [liker], the upvotes toggled for [voter], the stamp at [t2]. *)
Theorem like_upvote_commute t1 t2 st id oid liker voter post :
  castObjectId id = Some oid → st !! oid = Some post →
  castObjectId (userId liker) = Some (userId liker) →
  castObjectId (userId voter) = Some (userId voter) →
  (toggleUpvote t2 (toggleLike t1 st id liker).2 id voter).2 =
    (toggleLike t2 (toggleUpvote t1 st id voter).2 id liker).2 ∧
  (toggleUpvote t2 (toggleLike t1 st id liker).2 id voter).2 =
    <[oid := set_updatedAt t2
               (set_upvotes (toggled (userId voter) (upvotes post))
                  (set_likes (toggled (userId liker) (likes post)) post))]> st.
Proof.
  intros Hid Hpost Hliker Hvoter.
  rewrite (toggleLike_store t1 st id oid liker post) by done.
  rewrite (toggleUpvote_store t1 st id oid voter post) by done.
  erewrite (toggleUpvote_store t2 _ id oid voter) by (done || apply lookup_insert_eq).
  erewrite (toggleLike_store t2 _ id oid liker) by (done || apply lookup_insert_eq).
  by rewrite !insert_insert_eq.
Qed.

Lemma like_upvote_commute_witness :
  (toggleUpvote 3000 (toggleLike 2000 Data.store1 Data.pothole Data.bob).2
     Data.pothole Data.clerk).2 =
    (toggleLike 3000 (toggleUpvote 2000 Data.store1 Data.pothole Data.clerk).2
       Data.pothole Data.bob).2 ∧
  (toggleUpvote 3000 (toggleLike 2000 Data.store1 Data.pothole Data.bob).2
     Data.pothole Data.clerk).2 =
    <[Data.pothole :=
        set_updatedAt 3000
          (set_upvotes (toggled (userId Data.clerk) (upvotes Data.potholePost))
             (set_likes (toggled (userId Data.bob) (likes Data.potholePost))
                Data.potholePost))]> Data.store1.
Proof.
  apply (like_upvote_commute 2000 3000 Data.store1 Data.pothole Data.pothole Data.bob
           Data.clerk Data.potholePost eq_refl store1_pothole eq_refl eq_refl).
Defined.

Lemma toggled_absent u l : u ∉ l → toggled u l = l ++ [u].
Proof. intros Hu. unfold toggled. by rewrite bool_decide_eq_false_2. Qed.

(** X9: when users who are pairwise distinct, and none of whom likes the
    post yet, each send one like, the post ends up liked by all of them, in
    the order of their requests, after whoever liked it before: the number
    of likes has grown by the number of users. *)
Theorem likes_by_distinct_users now id oid users st post :
  castObjectId id = Some oid → st !! oid = Some post →
  Forall (λ user, castObjectId (userId user) = Some (userId user)) users →
  NoDup (userId <$> users) →
  Forall (λ user, userId user ∉ likes post) users →
  ∃ post',
    likesBy now id users st !! oid = Some post' ∧
    likes post' = likes post ++ (userId <$> users) ∧
    length (likes post') = (length (likes post) + length users)%nat.
Proof.
  intros Hid. revert st post.
  induction users as [|user users IH]; intros st post Hpost Hcanon Hdistinct Hnew.
  - exists post. simpl. by rewrite app_nil_r, Nat.add_0_r.
  - apply Forall_cons in Hcanon as [Huser Hcanon].
    apply Forall_cons in Hnew as [Hout Hnew].
    rewrite fmap_cons in Hdistinct. apply NoDup_cons in Hdistinct as [Hfirst Hdistinct].
    change (likesBy now id (user :: users) st)
      with (likesBy now id users (toggleLike now st id user).2).
    rewrite (toggleLike_store now st id oid user post) by done.
    rewrite (toggled_absent _ _ Hout).
    set (post1 := set_updatedAt now (set_likes (likes post ++ [userId user]) post)).
    destruct (IH (<[oid := post1]> st) post1) as (post' & Hpost' & Hlikes & _);
      [apply lookup_insert_eq | done | done | |].
    + apply Forall_forall. intros u Hu. simpl.
      intros [Hold|Heq%list_elem_of_singleton]%elem_of_app.
      * by apply (proj1 (Forall_forall _ _) Hnew u).
      * apply Hfirst. rewrite <-Heq. by apply list_elem_of_fmap_2.
    + exists post'. split; [done|]. simpl in Hlikes.
      rewrite Hlikes, <-app_assoc. split; [done|].
      rewrite !length_app, length_fmap. simpl. lia.
Qed.

Lemma likes_by_distinct_users_witness :
  ∃ post',
    likesBy 2000 Data.pothole [Data.bob; Data.clerk; Data.alice] Data.store1 !! Data.pothole
      = Some post' ∧
    likes post' = likes Data.potholePost ++ (userId <$> [Data.bob; Data.clerk; Data.alice]) ∧
    length (likes post') = (length (likes Data.potholePost) + 3)%nat.
Proof.
  apply (likes_by_distinct_users 2000 Data.pothole Data.pothole
           [Data.bob; Data.clerk; Data.alice] Data.store1 Data.potholePost eq_refl
           store1_pothole).
  - by repeat constructor.
  - by apply (bool_decide_unpack (NoDup (userId <$> [Data.bob; Data.clerk; Data.alice]))).
  - repeat constructor; apply not_elem_of_nil.
Defined.

(** ** Create, then read *)

(** X10: a post that Create has answered with can be read back: GET with
    the [_id] of that answer returns 200 with the very document of the
    answer, from the collection Create has left. *)
Theorem created_post_found `{Numerics} now uploadedAt newId st user body media doc :
  (createPost now uploadedAt newId st user body media).1 = status_json 201 (JPost doc) →
  castObjectId newId = Some newId →
  getPost (createPost now uploadedAt newId st user body media).2 doc.1 =
    (json (JPost doc), (createPost now uploadedAt newId st user body media).2).
Proof.
  unfold createPost. destruct (Multer.single _ _) as [file|]; [|done].
  destruct (newPost now user body file) as [post|]; [|done]. simpl.
  destruct (saveNew st newId post) as [st'|] eqn:Hsave; [|done]. simpl.
  intros [= <-] HnewId. unfold saveNew in Hsave.
  destruct (negb _); [done|]. destruct (bool_decide _); [done|]. injection Hsave as <-.
  unfold getPost. simpl.
  by rewrite (findById_present _ newId newId post HnewId (lookup_insert_eq _ _ _)).
Qed.

Lemma created_post_found_witness :
  getPost Data.store1 Data.pothole = (json (JPost (Data.pothole, Data.potholePost)), Data.store1).
Proof.
  apply (created_post_found (H := Sample.decimal) 1000 999 Data.pothole ∅ Data.alice
           (Data.report "Pothole" "40.0" "-75.0") None (Data.pothole, Data.potholePost));
    by vm_compute.
Defined.

(** ** GET /user *)

(** X11: the list of a caller's own posts holds every stored post whose
    author is the caller and no other post, each once, newest first; it is
    not paged.  A caller whose id is no ObjectId is answered 500. *)
Theorem getUserPosts_mine st user :
  match castObjectId (userId user) with
  | Some uid =>
      ∃ posts,
        getUserPosts st user = (json (JPosts posts), st) ∧
        (∀ oid post, (oid, post) ∈ posts ↔ st !! oid = Some post ∧ author post = uid) ∧
        NoDup posts ∧
        StronglySorted newestFirst posts
  | None => getUserPosts st user = (serverError (CastError "author"), st)
  end.
Proof.
  unfold getUserPosts. destruct (castObjectId (userId user)) as [uid|]; [|done].
  eexists. split; [reflexivity|]. split_and!.
  - intros oid post. rewrite merge_sort_Permutation, list_elem_of_filter.
    rewrite elem_of_map_to_list. simpl. tauto.
  - rewrite merge_sort_Permutation. apply NoDup_filter, NoDup_map_to_list.
  - apply StronglySorted_merge_sort; apply _.
Qed.

(** Bob has reported the lamp and nothing else. *)
Example getUserPosts_bob :
  getUserPosts Data.store3 Data.bob
    = (json (JPosts [(Data.lamp, Data.lampPost)]), Data.store3).
Proof. by vm_compute. Qed.

(** ** GET /, filters and pages *)

(** X12: without a [near] filter and with paging parameters that are
    accepted, the list is answered 200; every post in it is stored, has the
    category of a non-empty [category] filter and the status of a non-empty
    [status] filter; the list is ordered newest first, and holds at most 20
    posts when the request names no limit. *)
Theorem getPosts_filters `{Numerics} `{GeoIndex} st query page :
  given query "near" = None →
  paginate query [] = Return page →
  ∃ posts,
    getPosts st query = (json (JPosts posts), st) ∧
    Forall (λ doc, st !! doc.1 = Some doc.2 ∧
                   (∀ c, given query "category" = Some c → category doc.2 = c) ∧
                   (∀ s, given query "status" = Some s → status doc.2 = s)) posts ∧
    StronglySorted newestFirst posts ∧
    (query !! "limit" = None → length posts ≤ 20)%nat.
Proof.
  intros Hnear Hpage. unfold getPosts. rewrite Hnear. simpl.
  destruct (paginate_accepts query [] (find st (given query "category")
              (given query "status") None) page Hpage) as [posts Hposts].
  rewrite Hposts. simpl. exists posts. split; [done|].
  assert (Hfilters : Forall (λ doc, st !! doc.1 = Some doc.2 ∧
            (∀ c, given query "category" = Some c → category doc.2 = c) ∧
            (∀ s, given query "status" = Some s → status doc.2 = s))
            (find st (given query "category") (given query "status") None)).
  { eapply Forall_impl; [apply find_matches|]. simpl.
    intros doc [Hdoc Hmatch]. split; [done|]. unfold matches in Hmatch.
    apply andb_prop in Hmatch as [[Hc Hs]%andb_prop _].
    split.
    - intros c Hgiven. rewrite Hgiven in Hc. by apply bool_decide_eq_true in Hc.
    - intros s Hgiven. rewrite Hgiven in Hs. by apply bool_decide_eq_true in Hs. }
  destruct (paginate_page query _ _ posts Hposts Hfilters (find_sorted st _ _ _))
    as [Hall Hsorted].
  split_and!; [done..|].
  intros Hlimit. unfold paginate in Hposts. rewrite Hlimit in Hposts.
  destruct (match query !! "page" with Some _ => _ | None => _ end) as [pg|]; [|done].
  destruct (_ <? 0); [done|]. injection Hposts as <-.
  unfold limit. change (20 =? 0) with false. cbv iota.
  rewrite length_take. lia.
Qed.

Lemma getPosts_filters_witness :
  ∃ posts,
    getPosts (H := Sample.decimal) (H0 := Sample.grid) Data.store3
      {[ "category" := "roads"; "status" := "reported"; "page" := "1" ]}
      = (json (JPosts posts), Data.store3) ∧
    Forall (λ doc, Data.store3 !! doc.1 = Some doc.2 ∧
                   (∀ c, given {[ "category" := "roads"; "status" := "reported";
                                  "page" := "1" ]} "category" = Some c →
                         category doc.2 = c) ∧
                   (∀ s, given {[ "category" := "roads"; "status" := "reported";
                                  "page" := "1" ]} "status" = Some s →
                         status doc.2 = s)) posts ∧
    StronglySorted newestFirst posts ∧
    (({[ "category" := "roads"; "status" := "reported"; "page" := "1" ]} : gmap string string)
       !! "limit" = None → length posts ≤ 20)%nat.
Proof.
  apply (getPosts_filters (H := Sample.decimal) (H0 := Sample.grid) Data.store3
           {[ "category" := "roads"; "status" := "reported"; "page" := "1" ]} []);
    by vm_compute.
Defined.

(** X13: with a limit [n > 0] and a page [p >= 1] (by default 20 and 1),
    and a [near] filter that is accepted if the request has one, the page
    of a list holds, at its place [i < n], the post at place
    [(p - 1) * n + i] of the whole newest-first list of the posts that
    match the filters of the request (category, status and [near]), and
    nothing from place [n] on. *)
Theorem getPosts_page `{Numerics} `{GeoIndex} st query near n p :
  match given query "near" with
  | Some s => Some <$> nearQuery s
  | None => Return None
  end = Return near →
  match query !! "limit" with None => Some 20 | Some s => parseInt s end = Some n →
  match query !! "page" with None => Some 1 | Some s => parseInt s end = Some p →
  0 < n → 1 ≤ p →
  ∃ posts,
    getPosts st query = (json (JPosts posts), st) ∧
    ∀ i : nat,
      posts !! i =
        if decide (i < Z.to_nat n)%nat
        then find st (given query "category") (given query "status") near
               !! (Z.to_nat ((p - 1) * n) + i)%nat
        else None.
Proof.
  intros Hnear Hlimit Hpage Hn Hp. eexists. split.
  - by apply (getPosts_paged st query near n p).
  - intros i. apply page_lookup.
Qed.

Lemma getPosts_page_witness :
  ∃ posts,
    getPosts (H := Sample.decimal) (H0 := Sample.grid) Data.store3
      {[ "near" := "40.0,-75.0"; "limit" := "1"; "page" := "2" ]}
      = (json (JPosts posts), Data.store3) ∧
    ∀ i : nat,
      posts !! i =
        if decide (i < Z.to_nat 1)%nat
        then find (H := Sample.grid) Data.store3
               (given {[ "near" := "40.0,-75.0"; "limit" := "1"; "page" := "2" ]} "category")
               (given {[ "near" := "40.0,-75.0"; "limit" := "1"; "page" := "2" ]} "status")
               (Some (-75, 40, 5000)%Q)
               !! (Z.to_nat ((2 - 1) * 1) + i)%nat
        else None.
Proof.
  apply (getPosts_page (H := Sample.decimal) (H0 := Sample.grid) Data.store3
           {[ "near" := "40.0,-75.0"; "limit" := "1"; "page" := "2" ]}
           (Some (-75, 40, 5000)%Q) 1 2); by vm_compute.
Defined.

(** The second page of one post each holds the older post. *)
Example getPosts_second_page :
  (getPosts (H := Sample.decimal) (H0 := Sample.grid) Data.store3
     {[ "limit" := "1"; "page" := "2" ]}).1
    = json (JPosts [(Data.pothole, Data.potholePost)]).
Proof. by vm_compute. Qed.

(** ** The names of stored uploads *)

(** The filter reads the extension in lower case, as JavaScript lowers it:
    the dotted capital I becomes an [i] and a combining dot. *)
Example fileFilter_lowers :
  toLowerCase (".AV" +:+ utf8 [196; 176]%N) = ".avi" +:+ utf8 [204; 135]%N ∧
  toLowerCase (utf8 [226; 132; 170]%N +:+ "B") = "kb" ∧
  Multer.fileFilter {| Multer.originalname := "CLIP.AV" +:+ utf8 [196; 176]%N;
                       Multer.mimetype := "video/avi"; Multer.size := 1000 |} = true ∧
  Multer.fileFilter {| Multer.originalname := "notes.txt";
                       Multer.mimetype := "text/plain"; Multer.size := 1000 |} = false.
Proof. by vm_compute. Qed.

Lemma rev_app_app a b acc :
  String.rev_app (a +:+ b) acc = String.rev_app b (String.rev_app a acc).
Proof. revert acc. induction a as [|c a IH]; intros acc; [done|]. simpl. apply IH. Qed.

Lemma rev_snoc a c : String.rev (a +:+ String c "") = String c (String.rev a).
Proof. unfold String.rev. by rewrite rev_app_app. Qed.

Lemma substring_prefix a b : String.substring 0 (String.length a) (a +:+ b) = a.
Proof.
  induction a as [|c a IH]; simpl; [by destruct b|]. by rewrite IH.
Qed.

Lemma length_append a b : String.length (a +:+ b) = (String.length a + String.length b)%nat.
Proof. induction a as [|c a IH]; simpl; [done|]. by rewrite IH. Qed.

Lemma append_assoc a b c : a +:+ b +:+ c = (a +:+ b) +:+ c.
Proof.
  induction a as [|x a IH]; [done|].
  change (String x (a +:+ b +:+ c) = String x ((a +:+ b) +:+ c)). by rewrite IH.
Qed.

Lemma upTo_split c s :
  String.length (Multer.upTo c s) ≠ String.length s →
  ∃ rest, s = Multer.upTo c s +:+ String c rest.
Proof.
  induction s as [|a s IH]; simpl; [done|].
  case_bool_decide as Ha; simpl.
  - intros _. subst a. by exists s.
  - intros Hlen. destruct IH as [rest Hrest]; [lia|]. exists rest. by rewrite Hrest at 1.
Qed.

(** An extension is empty or opens with its dot. *)
Lemma extname_dot path :
  Multer.extname path = "" ∨ ∃ e, Multer.extname path = String "." e.
Proof.
  unfold Multer.extname. generalize (Multer.revBasename path). intros rb.
  pose proof (upTo_split "." rb) as Hsplit.
  remember (Multer.upTo "." rb) as e eqn:He. clear He. cbv zeta.
  destruct (String.length e =? String.length rb)%nat eqn:Hnodot; [by left|].
  destruct (S (String.length e) =? String.length rb)%nat; [by left|].
  case_bool_decide; [by left|]. right.
  apply Nat.eqb_neq in Hnodot. destruct (Hsplit Hnodot) as [rest ->].
  change (String "." rest) with (String "." "" +:+ rest). rewrite append_assoc.
  replace (S (String.length e)) with (String.length (e +:+ String "." ""))
    by (rewrite length_append; simpl; lia).
  rewrite substring_prefix, rev_snoc. by eexists.
Qed.

(** The characters of a string. *)
Lemma chars_go x s (P : ascii → Prop) :
  (∀ d, P (pretty_N_char d)) →
  Forall P (String.list_ascii_of_string s) →
  Forall P (String.list_ascii_of_string (pretty_N_go x s)).
Proof.
  intros Hdigit. revert s. induction (N.lt_wf_0 x) as [x _ IH]; intros s Hs.
  assert (x = 0 ∨ 0 < x)%N as [->|Hx] by lia; [by rewrite pretty_N_go_0|].
  rewrite pretty_N_go_step by done. apply IH; [by apply N.div_lt|].
  simpl. by constructor.
Qed.

(** A printed time holds no dot. *)
Lemma pretty_Z_no_dot (t : Z) :
  Forall (λ c, c ≠ "."%char) (String.list_ascii_of_string (pretty t)).
Proof.
  assert (Hdigit : ∀ d, pretty_N_char d ≠ "."%char).
  { intros d. unfold pretty_N_char. by repeat case_match. }
  assert (HN : ∀ x : N, Forall (λ c, c ≠ "."%char) (String.list_ascii_of_string (pretty x))).
  { intros x. unfold pretty, pretty_N. case_decide; [by repeat constructor|].
    apply chars_go; [done|constructor]. }
  destruct t as [|p|p]; unfold pretty, pretty_Z.
  - by repeat constructor.
  - apply HN.
  - simpl. constructor; [done|]. apply HN.
Qed.

Lemma split_at_first c a b r1 r2 :
  Forall (λ x, x ≠ c) (String.list_ascii_of_string a) →
  Forall (λ x, x ≠ c) (String.list_ascii_of_string b) →
  a +:+ String c r1 = b +:+ String c r2 → a = b ∧ r1 = r2.
Proof.
  revert b. induction a as [|x a IH]; intros [|y b] Ha Hb; simpl.
  - by intros [= ->].
  - intros [= <- _]. by apply Forall_cons in Hb as [[] _].
  - intros [= -> _]. by apply Forall_cons in Ha as [[] _].
  - apply Forall_cons in Ha as [_ Ha], Hb as [_ Hb].
    intros [= -> Heq]. by destruct (IH b Ha Hb Heq) as [-> ->].
Qed.

Lemma single_stored uploadedAt upload file :
  Multer.single uploadedAt (Some upload) = Return (Some file) →
  ∃ e, Multer.extname (Multer.originalname upload) = String "." e ∧
       Multer.filename file = pretty uploadedAt +:+ String "." e.
Proof.
  unfold Multer.single. destruct (Multer.fileFilter upload) eqn:Hfilter; [|done]. simpl.
  destruct (_ <? _)%N; [done|]. intros [= <-]. simpl.
  destruct (extname_dot (Multer.originalname upload)) as [Hnone|[e He]].
  - unfold Multer.fileFilter in Hfilter. rewrite Hnone in Hfilter.
    apply andb_prop in Hfilter as [_ Hext]. done.
  - exists e. by rewrite He.
Qed.

(** X14: two uploads that the middleware stores get the same file name
    exactly when they arrive in the same millisecond and their original
    names have the same extension; nothing else of the original name enters
    the stored name.  (So two such files of the same millisecond overwrite
    each other, and files of different milliseconds never do.) *)
Theorem stored_names_clash t1 t2 upload1 upload2 file1 file2 :
  Multer.single t1 (Some upload1) = Return (Some file1) →
  Multer.single t2 (Some upload2) = Return (Some file2) →
  Multer.filename file1 = Multer.filename file2 ↔
  t1 = t2 ∧
  Multer.extname (Multer.originalname upload1) = Multer.extname (Multer.originalname upload2).
Proof.
  intros (e1 & Hext1 & Hname1)%single_stored (e2 & Hext2 & Hname2)%single_stored.
  rewrite Hname1, Hname2, Hext1, Hext2. split.
  - intros [Htime ->]%split_at_first; auto using pretty_Z_no_dot.
    by apply (inj pretty) in Htime as ->.
  - by intros [-> [= ->]].
Qed.

Lemma stored_names_clash_witness :
  Multer.filename {| Multer.filename := "1700000000000.png"; Multer.fileMimetype := "image/png" |}
    = Multer.filename
        {| Multer.filename := "1700000000000.png"; Multer.fileMimetype := "image/png" |} ↔
  1700000000000 = 1700000000000 ∧
  Multer.extname "pothole.png" = Multer.extname "lamp.at.night.png".
Proof.
  apply (stored_names_clash 1700000000000 1700000000000
           {| Multer.originalname := "pothole.png"; Multer.mimetype := "image/png";
              Multer.size := 1000 |}
           {| Multer.originalname := "lamp.at.night.png"; Multer.mimetype := "image/png";
              Multer.size := 2000 |}); by vm_compute.
Defined.

(** ** What Create stores *)

(** X15: a valid Create without media stores, under the new [_id], the
    title without its surrounding white space, the description, category
    and address as sent, the point read from [lng] and [lat], the caller as
    author, no media URL, no assignee, no votes, no comments, and the time
    of the request as both time stamps. *)
Theorem createPost_stores `{Numerics} now uploadedAt newId st user body t d c x y :
  castString (get body "title") = Some t → trim t ≠ "" →
  castString (get body "description") = Some d → d ≠ "" →
  castString (get body "category") = Some c → c ∈ categoryEnum →
  parseFloatV (get body "lng") = Some x → parseFloatV (get body "lat") = Some y →
  validPoint x y = true →
  castObjectId (userId user) = Some (userId user) →
  st !! newId = None →
  (createPost now uploadedAt newId st user body None).2 !! newId =
    Some {| title := trim t; description := d; category := c;
            location := {| lng := x; lat := y;
                           address := castString (get body "address") |};
            imageUrl := None; videoUrl := None; status := "reported";
            author := userId user; assignedTo := None; upvotes := []; likes := [];
            shares := 0; comments := []; createdAt := now; updatedAt := now |}.
Proof.
  intros Ht Htrim Hd Hdne Hc Hcin Hx Hy Hxy Huser Hfresh.
  unfold createPost, newPost. simpl. rewrite Ht, Hd, Hc, Hx, Hy, Huser.
  change (trim <$> Some t) with (Some (trim t)).
  rewrite !required_nonempty by auto using categoryEnum_nonempty.
  rewrite oneOf_member by done. simpl. unfold saveNew. simpl. rewrite Hxy. simpl.
  rewrite bool_decide_eq_false_2 by (rewrite Hfresh; by intros [? ?]). simpl.
  apply lookup_insert_eq.
Qed.

Lemma createPost_stores_witness :
  (createPost (H := Sample.decimal) 1000 999 Data.pothole ∅ Data.alice
     (Data.report "  Pothole " "40.0" "-75.0") None).2 !! Data.pothole =
    Some {| title := trim "  Pothole "; description := "as seen this morning";
            category := "roads";
            location := {| lng := -75; lat := 40;
                           address := castString (get (Data.report "  Pothole " "40.0" "-75.0")
                                                      "address") |};
            imageUrl := None; videoUrl := None; status := "reported";
            author := userId Data.alice; assignedTo := None; upvotes := []; likes := [];
            shares := 0; comments := []; createdAt := 1000; updatedAt := 1000 |}.
Proof.
  apply (createPost_stores (H := Sample.decimal) 1000 999 Data.pothole ∅ Data.alice
           (Data.report "  Pothole " "40.0" "-75.0") "  Pothole " "as seen this morning"
           "roads" (-75)%Q 40%Q);
    first [ by vm_compute | discriminate | by repeat constructor ].
Defined.
